(** * run_script_service.py: a periodic script runner, embedded in Rocq

    The program is one Python file.  A [RunScriptService] object holds a run
    flag, an interval and a line bound for the log; it loads its interval
    from [service_config.json], executes [run.sh] once per cycle, appends a
    record of the outcome to [run.log], trims the log and sleeps in
    one-second slices.  [main] dispatches on [sys.argv].

    Text is modelled as [string], one [ascii] per code point below 256.
    Python's unbounded [int] is [Z].  Files are the decoded text they hold;
    the platform is POSIX (a written line feed stays one character). *)

From Stdlib Require Import ZArith NArith List String Ascii Bool Lia.
Import ListNotations.

Set Warnings "-register-all".

#[local] Open Scope string_scope.
#[local] Open Scope Z_scope.

(** ** Python text primitives *)

Module Py.

(** [ord(c)] and [chr(n)] on code points below 256. *)
Definition ord (c : ascii) : Z := Z.of_N (N_of_ascii c).
Definition chr (n : Z) : ascii := ascii_of_N (Z.to_N n).

(** The double quote. *)
Definition DQ : ascii := "034"%char.

Definition LF : ascii := "010"%char.
Definition CR : ascii := "013"%char.
Definition nl : string := String LF "".

Definition is_digit (c : ascii) : bool := (48 <=? ord c) && (ord c <=? 57).
Definition digit_val (c : ascii) : Z := ord c - 48.

(** [str.isspace] on one code point below 256: TAB..CR, FS..US, SPACE,
    NEL and NBSP. *)
Definition isspace (c : ascii) : bool :=
  let n := ord c in
  ((9 <=? n) && (n <=? 13)) || ((28 <=? n) && (n <=? 32))
  || (n =? 133) || (n =? 160).

(** C's [Py_ISSPACE], the white space [int()] skips around a literal. *)
Definition c_isspace (c : ascii) : bool :=
  let n := ord c in ((9 <=? n) && (n <=? 13)) || (n =? 32).

Fixpoint lstrip (s : string) : string :=
  match s with
  | String c r => if isspace c then lstrip r else s
  | EmptyString => EmptyString
  end.

Fixpoint rstrip (s : string) : string :=
  match s with
  | String c r =>
      match rstrip r with
      | EmptyString => if isspace c then EmptyString else String c EmptyString
      | r' => String c r'
      end
  | EmptyString => EmptyString
  end.

(** [s.strip()] *)
Definition strip (s : string) : string := rstrip (lstrip s).

(** [c * n] for a one-character string. *)
Fixpoint repeat_char (c : ascii) (n : nat) : string :=
  match n with
  | O => EmptyString
  | S k => String c (repeat_char c k)
  end.

(** *** [str(n)] for an [int] *)

Fixpoint digits_of (fuel : nat) (n : Z) (acc : string) : string :=
  match fuel with
  | O => acc
  | S f =>
      let acc' := String (chr (48 + n mod 10)) acc in
      if n <? 10 then acc' else digits_of f (n / 10) acc'
  end.

(** Decimal digits of [n >= 0]; [log2 n + 1] bounds their number. *)
Definition str_nat (n : Z) : string :=
  digits_of (S (Z.to_nat (Z.log2 n))) n EmptyString.

Definition str_int (n : Z) : string :=
  if n <? 0 then String "-" (str_nat (- n)) else str_nat n.

(** *** [int(s)] for a [str], base 10

    CPython first maps non-ASCII white space to a blank and any other
    non-ASCII character that is no decimal digit to a question mark
    (below 256 there is no non-ASCII decimal digit), then
    [PyLong_FromString] skips C white space, reads a sign, reads digits
    in which single underscores may separate digits, skips C white space
    and requires the end of the text.  [None] is [ValueError].  The
    interpreter's optional cap on the number of digits is not modelled. *)

Definition to_ascii_space (c : ascii) : ascii :=
  if ord c <? 127 then c
  else if isspace c then " "%char else "?"%char.

Fixpoint map_string (f : ascii -> ascii) (s : string) : string :=
  match s with
  | String c r => String (f c) (map_string f r)
  | EmptyString => EmptyString
  end.

Fixpoint skip_c_space (s : string) : string :=
  match s with
  | String c r => if c_isspace c then skip_c_space r else s
  | EmptyString => EmptyString
  end.

(** Digits and underscores: [seen] says a digit was read, [prev_us] that
    the previous character was an underscore. *)
Fixpoint long_digits (s : string) (acc : Z) (seen prev_us : bool)
  : option (Z * string) :=
  let finish := if prev_us then None
                else if seen then Some (acc, s) else None in
  match s with
  | String c r =>
      if is_digit c then long_digits r (10 * acc + digit_val c) true false
      else if (c =? "_")%char then
        if prev_us then None
        else if seen then long_digits r acc true true else None
      else finish
  | EmptyString => finish
  end.

Definition int (s : string) : option Z :=
  let s1 := skip_c_space (map_string to_ascii_space s) in
  let '(neg, s2) :=
    match s1 with
    | String c r =>
        if (c =? "-")%char then (true, r)
        else if (c =? "+")%char then (false, r) else (false, s1)
    | EmptyString => (false, s1)
    end in
  match long_digits s2 0 false false with
  | Some (v, rest) =>
      match skip_c_space rest with
      | EmptyString => Some (if neg then - v else v)
      | _ => None
      end
  | None => None
  end.

(** *** Text files: universal newlines and [readlines] *)

(** Reading in text mode turns CR LF and a lone CR into LF. *)
Fixpoint universal_newlines (s : string) : string :=
  match s with
  | String c r =>
      if (c =? CR)%char then
        match r with
        | String d r' =>
            if (d =? LF)%char then String LF (universal_newlines r')
            else String LF (universal_newlines r)
        | EmptyString => String LF EmptyString
        end
      else String c (universal_newlines r)
  | EmptyString => EmptyString
  end.

(** Lines of a text, each kept with its line feed; only the last line
    may lack one. *)
Fixpoint split_lines (s : string) : list string :=
  match s with
  | String c r =>
      if (c =? LF)%char then String LF EmptyString :: split_lines r
      else match split_lines r with
           | [] => [String c EmptyString]
           | l :: ls => String c l :: ls
           end
  | EmptyString => []
  end.

(** [f.readlines()] on a file opened with mode ['r']. *)
Definition readlines (content : string) : list string :=
  split_lines (universal_newlines content).

(** What [f.writelines(lines)] adds to a file. *)
Definition writelines (lines : list string) : string :=
  List.fold_right String.append EmptyString lines.

(** [l[start:]] with Python's reading of a negative start. *)
Definition slice_from {A} (start : Z) (l : list A) : list A :=
  let n := Z.of_nat (List.length l) in
  if start <? 0 then skipn (Z.to_nat (Z.max 0 (n + start))) l
  else skipn (Z.to_nat start) l.

End Py.


(** ** The [json] module: values, [json.load] and [json.dump(..., indent=2)] *)

Module Json.

(** A decoded JSON document, which is also the Python value it becomes.
    A string carries its code points (an escape can name any of them).
    A float carries the text of its literal: its rounding to a double is
    not modelled.  An object is the [dict] it becomes: keys in insertion
    order, no key twice. *)
Inductive json : Type :=
| JNull
| JBool (b : bool)
| JInt (n : Z)
| JFloat (literal : string)
| JString (s : list N)
| JArray (items : list json)
| JObject (members : list (list N * json)).

Inductive res (A : Type) : Type :=
| Ok (a : A)
| Err
| OutOfFuel.
Arguments Ok {A} a.
Arguments Err {A}.
Arguments OutOfFuel {A}.

Definition code_points (s : string) : list N :=
  List.map N_of_ascii (list_ascii_of_string s).

Fixpoint key_eqb (a b : list N) : bool :=
  match a, b with
  | [], [] => true
  | x :: a', y :: b' => (x =? y)%N && key_eqb a' b'
  | _, _ => false
  end.

(** [d[k] = v] on a dict held as an association list. *)
Fixpoint dict_set (k : list N) (v : json) (d : list (list N * json))
  : list (list N * json) :=
  match d with
  | [] => [(k, v)]
  | (k', v') :: d' =>
      if key_eqb k k' then (k', v) :: d' else (k', v') :: dict_set k v d'
  end.

Fixpoint dict_lookup (k : list N) (d : list (list N * json)) : option json :=
  match d with
  | [] => None
  | (k', v) :: d' => if key_eqb k k' then Some v else dict_lookup k d'
  end.

(** *** Decoding

    The scanner follows CPython's [_json] accelerator, which [json.load]
    uses by default.  [Err] stands for the exception a malformed text
    raises ([JSONDecodeError]).  Two limits of the interpreter are left
    out: the recursion limit on nesting and the optional cap on the number
    of digits of an [int]. *)

Definition is_ws (c : ascii) : bool :=
  ((c =? " ")%char || (c =? "009")%char || (c =? "010")%char
   || (c =? "013")%char)%bool.

Fixpoint skip_ws (s : string) : string :=
  match s with
  | String c r => if is_ws c then skip_ws r else s
  | EmptyString => EmptyString
  end.

Definition hex_val (c : ascii) : option N :=
  let n := N_of_ascii c in
  if ((48 <=? n) && (n <=? 57))%N then Some (n - 48)%N
  else if ((97 <=? n) && (n <=? 102))%N then Some (n - 87)%N
  else if ((65 <=? n) && (n <=? 70))%N then Some (n - 55)%N
  else None.

Definition hex4 (a b c d : ascii) : option N :=
  match hex_val a, hex_val b, hex_val c, hex_val d with
  | Some x, Some y, Some z, Some w =>
      Some (((x * 16 + y) * 16 + z) * 16 + w)%N
  | _, _, _, _ => None
  end.

Definition is_high_surrogate (n : N) : bool :=
  ((55296 <=? n) && (n <=? 56319))%N.
Definition is_low_surrogate (n : N) : bool :=
  ((56320 <=? n) && (n <=? 57343))%N.
Definition join_surrogates (hi lo : N) : N :=
  (65536 + (hi - 55296) * 1024 + (lo - 56320))%N.

Definition simple_escape (c : ascii) : option N :=
  if (c =? Py.DQ)%char then Some 34%N
  else if (c =? "\")%char then Some 92%N
  else if (c =? "/")%char then Some 47%N
  else if (c =? "b")%char then Some 8%N
  else if (c =? "f")%char then Some 12%N
  else if (c =? "n")%char then Some 10%N
  else if (c =? "r")%char then Some 13%N
  else if (c =? "t")%char then Some 9%N
  else None.

(** The low half of a surrogate pair written as a second escape. *)
Definition low_escape (b u a1 a2 a3 a4 : ascii) : option N :=
  if ((b =? "\")%char && (u =? "u")%char)%bool then
    match hex4 a1 a2 a3 a4 with
    | Some lo => if is_low_surrogate lo then Some lo else None
    | None => None
    end
  else None.

(** [scanstring] in strict mode, from just after the opening quote;
    [acc] holds the decoded code points, last first. *)
Fixpoint scanstring (s : string) (acc : list N) : option (list N * string) :=
  match s with
  | EmptyString => None
  | String c r =>
      if (c =? Py.DQ)%char then Some (List.rev acc, r)
      else if (c =? "\")%char then
        match r with
        | EmptyString => None
        | String e r1 =>
            if (e =? "u")%char then
              match r1 with
              | String h1 (String h2 (String h3 (String h4 r2))) =>
                  match hex4 h1 h2 h3 h4 with
                  | None => None
                  | Some cp =>
                      if is_high_surrogate cp then
                        match r2 with
                        | String b (String u (String l1 (String l2
                            (String l3 (String l4 r3))))) =>
                            match low_escape b u l1 l2 l3 l4 with
                            | Some lo =>
                                scanstring r3 (join_surrogates cp lo :: acc)
                            | None => scanstring r2 (cp :: acc)
                            end
                        | _ => scanstring r2 (cp :: acc)
                        end
                      else scanstring r2 (cp :: acc)
                  end
              | _ => None
              end
            else
              match simple_escape e with
              | Some cp => scanstring r1 (cp :: acc)
              | None => None
              end
        end
      else if (N_of_ascii c <=? 31)%N then None
      else scanstring r (N_of_ascii c :: acc)
  end.

(** The longest prefix of digits, and what follows it. *)
Fixpoint span_digits (s : string) : string * string :=
  match s with
  | String c r =>
      if Py.is_digit c then
        let '(ds, rest) := span_digits r in (String c ds, rest)
      else (EmptyString, s)
  | EmptyString => (EmptyString, EmptyString)
  end.

(** The value of a text of digits, as [int()] reads it. *)
Fixpoint digits_value (s : string) (acc : Z) : Z :=
  match s with
  | String c r => digits_value r (10 * acc + Py.digit_val c)
  | EmptyString => acc
  end.

(** The optional fraction: a point followed by at least one digit. *)
Definition match_fraction (s : string) : string * string :=
  match s with
  | String p (String d r) =>
      if ((p =? ".")%char && Py.is_digit d)%bool then
        let '(ds, rest) := span_digits (String d r) in (String p ds, rest)
      else (EmptyString, s)
  | _ => (EmptyString, s)
  end.

(** The optional exponent: [e] or [E], an optional sign, at least one
    digit; anything less is left unread. *)
Definition match_exponent (s : string) : string * string :=
  match s with
  | String e r =>
      if ((e =? "e")%char || (e =? "E")%char)%bool then
        let '(sign, r1) :=
          match r with
          | String g r' =>
              if ((g =? "-")%char || (g =? "+")%char)%bool
              then (String g EmptyString, r') else (EmptyString, r)
          | EmptyString => (EmptyString, r)
          end in
        match span_digits r1 with
        | (EmptyString, _) => (EmptyString, s)
        | (ds, rest) => (String e (sign ++ ds), rest)
        end
      else (EmptyString, s)
  | EmptyString => (EmptyString, s)
  end.

(** [_match_number]: an optional minus, [0] or a digit string that does
    not start with [0], then fraction and exponent.  Without the last
    two the literal is an [int]. *)
Definition match_number (s : string) : option (json * string) :=
  let '(neg, s1) :=
    match s with
    | String c r => if (c =? "-")%char then (true, r) else (false, s)
    | EmptyString => (false, s)
    end in
  match s1 with
  | String c r =>
      if Py.is_digit c then
        let '(ip, r1) :=
          if (c =? "0")%char then (String c EmptyString, r)
          else span_digits s1 in
        let '(fp, r2) := match_fraction r1 in
        let '(ep, r3) := match_exponent r2 in
        match fp, ep with
        | EmptyString, EmptyString =>
            let v := digits_value ip 0 in
            Some (JInt (if neg then - v else v), r3)
        | _, _ =>
            Some (JFloat ((if neg then "-" else "") ++ ip ++ fp ++ ep), r3)
        end
      else None
  | EmptyString => None
  end.

(** [s] starts with [p]: what follows [p]. *)
Fixpoint strip_prefix (p s : string) : option string :=
  match p with
  | EmptyString => Some s
  | String a p' =>
      match s with
      | String b s' => if (a =? b)%char then strip_prefix p' s' else None
      | EmptyString => None
      end
  end.

Definition lift_opt {A} (o : option A) : res A :=
  match o with
  | Some a => Ok a
  | None => Err
  end.

(** A literal that is no string, array or object. *)
Definition scan_atom (s : string) : res (json * string) :=
  match strip_prefix "null" s with
  | Some r => Ok (JNull, r)
  | None =>
  match strip_prefix "true" s with
  | Some r => Ok (JBool true, r)
  | None =>
  match strip_prefix "false" s with
  | Some r => Ok (JBool false, r)
  | None =>
  match strip_prefix "NaN" s with
  | Some r => Ok (JFloat "NaN", r)
  | None =>
  match strip_prefix "Infinity" s with
  | Some r => Ok (JFloat "Infinity", r)
  | None =>
  match strip_prefix "-Infinity" s with
  | Some r => Ok (JFloat "-Infinity", r)
  | None => lift_opt (match_number s)
  end end end end end end.

(** [scan_once] with its two loops, [_parse_array] and [_parse_object].
    Each call uses one unit of [fuel]; [json_loads] supplies enough. *)
Fixpoint scan_once (fuel : nat) (s : string) {struct fuel}
  : res (json * string) :=
  match fuel with
  | O => OutOfFuel
  | S fuel' =>
      match s with
      | EmptyString => Err
      | String c r =>
          if (c =? Py.DQ)%char then
            match scanstring r [] with
            | Some (cps, rest) => Ok (JString cps, rest)
            | None => Err
            end
          else if (c =? "[")%char then
            match skip_ws r with
            | String d r' =>
                if (d =? "]")%char then Ok (JArray [], r')
                else parse_array fuel' (String d r') []
            | EmptyString => Err
            end
          else if (c =? "{")%char then
            match skip_ws r with
            | String d r' =>
                if (d =? "}")%char then Ok (JObject [], r')
                else parse_object fuel' (String d r') []
            | EmptyString => Err
            end
          else scan_atom s
      end
  end

(** At the start of an element; [acc] holds the elements read, last
    first. *)
with parse_array (fuel : nat) (s : string) (acc : list json) {struct fuel}
  : res (json * string) :=
  match fuel with
  | O => OutOfFuel
  | S fuel' =>
      match scan_once fuel' s with
      | Ok (v, r) =>
          match skip_ws r with
          | String c r' =>
              if (c =? "]")%char then Ok (JArray (List.rev (v :: acc)), r')
              else if (c =? ",")%char then
                parse_array fuel' (skip_ws r') (v :: acc)
              else Err
          | EmptyString => Err
          end
      | Err => Err
      | OutOfFuel => OutOfFuel
      end
  end

(** At the start of a member, which must be a quoted key; [acc] is the
    dict built so far. *)
with parse_object (fuel : nat) (s : string) (acc : list (list N * json))
       {struct fuel} : res (json * string) :=
  match fuel with
  | O => OutOfFuel
  | S fuel' =>
      match s with
      | String q r =>
          if (q =? Py.DQ)%char then
            match scanstring r [] with
            | Some (k, r1) =>
                match skip_ws r1 with
                | String c r2 =>
                    if (c =? ":")%char then
                      match scan_once fuel' (skip_ws r2) with
                      | Ok (v, r3) =>
                          let acc' := dict_set k v acc in
                          match skip_ws r3 with
                          | String e r4 =>
                              if (e =? "}")%char then Ok (JObject acc', r4)
                              else if (e =? ",")%char then
                                parse_object fuel' (skip_ws r4) acc'
                              else Err
                          | EmptyString => Err
                          end
                      | Err => Err
                      | OutOfFuel => OutOfFuel
                      end
                    else Err
                | EmptyString => Err
                end
            | None => Err
            end
          else Err
      | EmptyString => Err
      end
  end.

(** [json.loads(s)]: one value between optional white space, then the
    end of the text. *)
Definition json_loads (s : string) : res json :=
  match scan_once (2 * String.length s + 1) (skip_ws s) with
  | Ok (v, r) =>
      match skip_ws r with
      | EmptyString => Ok v
      | _ => Err
      end
  | Err => Err
  | OutOfFuel => OutOfFuel
  end.

(** [json.load(f)] on a file opened with mode ['r']. *)
Definition json_load (content : string) : res json :=
  json_loads (Py.universal_newlines content).

(** *** Encoding, as [json.dump(obj, f, indent=2)] writes it

    Defaults otherwise: [ensure_ascii], separators [","] and [": "]. *)

Definition hex_digit (n : N) : ascii :=
  if (n <? 10)%N then ascii_of_N (48 + n) else ascii_of_N (87 + n).

(** [\uXXXX] for a code unit below 65536. *)
Definition u_escape (n : N) : string :=
  String "\" (String "u"
    (String (hex_digit (n / 4096 mod 16))
    (String (hex_digit (n / 256 mod 16))
    (String (hex_digit (n / 16 mod 16))
    (String (hex_digit (n mod 16)) EmptyString))))).

Definition escape_char (n : N) : string :=
  if (n =? 34)%N then String "\" (String Py.DQ EmptyString)
  else if (n =? 92)%N then "\\"
  else if (n =? 10)%N then "\n"
  else if (n =? 13)%N then "\r"
  else if (n =? 9)%N then "\t"
  else if (n =? 12)%N then "\f"
  else if (n =? 8)%N then "\b"
  else if ((32 <=? n) && (n <=? 126))%N then String (ascii_of_N n) EmptyString
  else if (n <? 65536)%N then u_escape n
  else
    let v := (n - 65536)%N in
    u_escape (55296 + v / 1024 mod 1024) ++ u_escape (56320 + v mod 1024).

Definition encode_string (s : list N) : string :=
  String Py.DQ
    (List.fold_right (fun n t => escape_char n ++ t)
       (String Py.DQ EmptyString) s).

(** A line feed and [level] indents of two blanks. *)
Fixpoint newline_indent (level : nat) : string :=
  match level with
  | O => Py.nl
  | S k => newline_indent k ++ "  "
  end.

Fixpoint encode (level : nat) (v : json) {struct v} : string :=
  match v with
  | JNull => "null"
  | JBool true => "true"
  | JBool false => "false"
  | JInt n => Py.str_int n
  | JFloat literal => literal
  | JString s => encode_string s
  | JArray [] => "[]"
  | JArray (x :: items) =>
      "[" ++ newline_indent (S level) ++ encode (S level) x
      ++ (fix rest (l : list json) : string :=
            match l with
            | [] => EmptyString
            | y :: l' =>
                "," ++ newline_indent (S level) ++ encode (S level) y
                ++ rest l'
            end) items
      ++ newline_indent level ++ "]"
  | JObject [] => "{}"
  | JObject ((k, x) :: members) =>
      "{" ++ newline_indent (S level) ++ encode_string k ++ ": "
      ++ encode (S level) x
      ++ (fix rest (l : list (list N * json)) : string :=
            match l with
            | [] => EmptyString
            | (k', y) :: l' =>
                "," ++ newline_indent (S level) ++ encode_string k' ++ ": "
                ++ encode (S level) y ++ rest l'
            end) members
      ++ newline_indent level ++ "}"
  end.

Definition json_dumps_indent2 (v : json) : string := encode 0 v.

End Json.


(** ** The world the program acts on *)

Import Json.

(** The two files the program reads and writes, both beside the script:
    [service_config.json] and [run.log]. *)
Inductive file : Type := ConfigFile | LogFile.

Inductive mode : Type := ModeR | ModeW | ModeA.

(** One call of [print].  An exception's own text, and the text of a value
    that is no [int], stay symbolic. *)
Inductive printed : Type :=
| Text (s : string)
| ErrorLoadingConfig          (* f"Error loading config: {e}" *)
| ServiceStarted (v : json).  (* f"Service started with {self.interval} second interval" *)

(** File contents ([None]: the file does not exist), every [open] in
    program order, and standard output.  File operations themselves do not
    fail here; what can fail is a missing file, the decoding of the
    configuration and the launch of the script. *)
Record world : Type := mkWorld {
  config_file : option string;
  log_file : option string;
  opened : list (file * mode);
  console : list printed
}.

Definition print (p : printed) (w : world) : world :=
  mkWorld (config_file w) (log_file w) (opened w) (console w ++ [p]).

Definition content (f : file) (w : world) : option string :=
  match f with
  | ConfigFile => config_file w
  | LogFile => log_file w
  end.

Definition set_content (f : file) (c : string) (w : world) : world :=
  match f with
  | ConfigFile => mkWorld (Some c) (log_file w) (opened w) (console w)
  | LogFile => mkWorld (config_file w) (Some c) (opened w) (console w)
  end.

Definition note_open (f : file) (m : mode) (w : world) : world :=
  mkWorld (config_file w) (log_file w) (opened w ++ [(f, m)]) (console w).

(** [with open(path, 'w') as f: f.write(text)] *)
Definition write_file (f : file) (text : string) (w : world) : world :=
  set_content f text (note_open f ModeW w).

(** [with open(path, 'a') as f: f.write(text)]; a missing file is created. *)
Definition append_file (f : file) (text : string) (w : world) : world :=
  let old := match content f w with
             | Some c => c
             | None => EmptyString
             end in
  set_content f (old ++ text) (note_open f ModeA w).

(** ** class RunScriptService *)

(** The attributes that change or are read as data.  The three paths are
    the constants above and [run.sh]; the interval is whatever Python value
    was last stored in it. *)
Record RunScriptService : Type := mkService {
  running : bool;
  interval : json;
  max_log_lines : Z
}.

Definition set_running (b : bool) (s : RunScriptService) : RunScriptService :=
  mkService b (interval s) (max_log_lines s).

Definition set_interval_attr (v : json) (s : RunScriptService)
  : RunScriptService :=
  mkService (running s) v (max_log_lines s).

Definition interval_key : list N := code_points "interval".

(** [config.get('interval', 3600)]; anything but a dict has no [get]. *)
Definition config_get (config : json) : option json :=
  match config with
  | JObject d =>
      match dict_lookup interval_key d with
      | Some v => Some v
      | None => Some (JInt 3600)
      end
  | _ => None
  end.

(** Lines 27-35.  A decoding error and the missing [get] are both caught
    by [except Exception] and reported; the interval then keeps its value. *)
Definition load_config (s : RunScriptService) (w : world)
  : RunScriptService * world :=
  match config_file w with
  | None => (s, w)
  | Some text =>
      let w1 := note_open ConfigFile ModeR w in
      match json_load text with
      | Ok config =>
          match config_get config with
          | Some v => (set_interval_attr v s, w1)
          | None => (s, print ErrorLoadingConfig w1)
          end
      | _ => (s, print ErrorLoadingConfig w1)
      end
  end.

(** Lines 12-25.  The two [signal.signal] calls install [signal_handler]
    for SIGTERM and SIGINT; the run loop below delivers signals to it. *)
Definition init (w : world) : RunScriptService * world :=
  load_config (mkService false (JInt 3600) 100) w.

(** Lines 37-44. *)
Definition save_config (s : RunScriptService) (w : world) : world :=
  let config := JObject [(interval_key, interval s)] in
  write_file ConfigFile (json_dumps_indent2 config) w.

(** Lines 46-50; [main] is the only caller and passes an [int]. *)
Definition set_interval (s : RunScriptService) (n : Z) (w : world)
  : RunScriptService * world :=
  let s1 := set_interval_attr (JInt n) s in
  let w1 := save_config s1 w in
  (s1, print (Text ("Interval set to " ++ Py.str_int n ++ " seconds")) w1).

(** Lines 52-65. *)
Definition trim_log (s : RunScriptService) (w : world) : world :=
  match log_file w with
  | None => w
  | Some text =>
      let w1 := note_open LogFile ModeR w in
      let lines := Py.readlines text in
      if Z.of_nat (List.length lines) >? max_log_lines s then
        write_file LogFile
          (Py.writelines (Py.slice_from (- max_log_lines s) lines)) w1
      else w1
  end.

(** What [subprocess.run] did: the child ran to its end, or the call
    raised an [Exception] whose [str] is [msg] (the script is missing or
    may not be executed, its output does not decode, ...), or a SIGTERM or
    SIGINT arrived while the program waited for the child. *)
Inductive launch : Type :=
| Completed (returncode : Z) (stdout stderr : string)
| Failed (msg : string)
| Signalled (signum : Z).

(** What is in flight when a call ends: an instance of [Exception], which
    [except Exception] catches, or [SystemExit], which it lets through. *)
Inductive raised : Type :=
| AnException (msg : string)
| SystemExit (code : Z).

Inductive completion : Type :=
| Normal
| Raises (e : raised).

(** Lines 120-123. *)
Definition stop (s : RunScriptService) (w : world)
  : RunScriptService * world :=
  (set_running false s, print (Text "Service stopping...") w).

(** Lines 125-129; [sys.exit(0)] raises [SystemExit(0)] where the signal
    arrived. *)
Definition signal_handler (s : RunScriptService) (signum : Z) (w : world)
  : RunScriptService * world * completion :=
  let w1 := print (Text ("Received signal " ++ Py.str_int signum)) w in
  let '(s2, w2) := stop s w1 in
  (s2, w2, Raises (SystemExit 0)).

Definition separator : string := Py.repeat_char "-" 50 ++ Py.nl.

(** Lines 81-86. *)
Definition log_entry (timestamp : string) (returncode : Z)
  (stdout stderr : string) : string :=
  let e0 := "[" ++ timestamp ++ "] Exit code: " ++ Py.str_int returncode
            ++ Py.nl in
  let e1 := match stdout with
            | EmptyString => e0
            | _ => e0 ++ "STDOUT: " ++ Py.strip stdout ++ Py.nl
            end in
  let e2 := match stderr with
            | EmptyString => e1
            | _ => e1 ++ "STDERR: " ++ Py.strip stderr ++ Py.nl
            end in
  e2 ++ separator.

(** Line 99. *)
Definition error_msg (timestamp msg : string) : string :=
  "[" ++ timestamp ++ "] ERROR: " ++ msg ++ Py.nl ++ separator.

(** Lines 73-78: the call of [subprocess.run]. *)
Definition subprocess_run (s : RunScriptService) (l : launch) (w : world)
  : RunScriptService * world * (Z * string * string + raised) :=
  match l with
  | Completed rc out err => (s, w, inl (rc, out, err))
  | Failed msg => (s, w, inr (AnException msg))
  | Signalled signum =>
      let '(s1, w1, _) := signal_handler s signum w in
      (s1, w1, inr (SystemExit 0))
  end.

(** Lines 67-104.  [now] is the text of the first
    [datetime.now().strftime("%Y-%m-%d %H:%M:%S")], [now'] that of the one in
    the handler. *)
Definition execute_script (s : RunScriptService) (now now' : string)
  (l : launch) (w : world) : RunScriptService * world * completion :=
  let '(s1, w1, r) := subprocess_run s l w in
  match r with
  | inl (returncode, stdout, stderr) =>
      let w2 :=
        append_file LogFile (log_entry now returncode stdout stderr) w1 in
      let w3 := trim_log s1 w2 in
      (s1,
       print (Text ("Script executed at " ++ now ++ ", exit code: "
                    ++ Py.str_int returncode)) w3,
       Normal)
  | inr (AnException msg) =>
      let w2 := append_file LogFile (error_msg now' msg) w1 in
      (s1, print (Text ("Error executing script: " ++ msg)) w2, Normal)
  | inr (SystemExit code) => (s1, w1, Raises (SystemExit code))
  end.

(** ** The service loop *)

(** Where the program waits: for the child in [execute_script], in
    [time.sleep(1)] with [elapsed] seconds counted, or nowhere any more. *)
Inductive ending : Type :=
| LoopLeft                    (* [run] returned *)
| Exited (code : Z)           (* [SystemExit] reached the top *)
| TypeError.                  (* [elapsed < self.interval] has no meaning *)

Inductive pc : Type :=
| AtExec
| AtSleep (elapsed : Z)
| Ended (e : ending).

Record state : Type := mkState {
  svc : RunScriptService;
  wld : world;
  at_pc : pc
}.

Inductive event : Type :=
| Ran (now now' : string) (l : launch)  (* the wait for the child is over *)
| Slept                                 (* [time.sleep(1)] returned *)
| Signal (signum : Z).                  (* SIGTERM or SIGINT during the sleep *)

Section Loop.

(** [n < x] for the float written [literal]. *)
Variable int_lt_float : Z -> string -> bool.

(** [elapsed < self.interval]; [None] is Python's [TypeError]. *)
Definition lt_interval (elapsed : Z) (v : json) : option bool :=
  match v with
  | JInt n => Some (elapsed <? n)
  | JBool b => Some (elapsed <? (if b then 1 else 0))
  | JFloat literal => Some (int_lt_float elapsed literal)
  | _ => None
  end.

(** Line 111, the test of the outer loop. *)
Definition outer_test (s : RunScriptService) (w : world) : state :=
  if running s then mkState s w AtExec else mkState s w (Ended LoopLeft).

(** Line 116, the test of the wait loop, and line 111 when it fails. *)
Definition wait_test (s : RunScriptService) (w : world) (elapsed : Z)
  : state :=
  match lt_interval elapsed (interval s) with
  | None => mkState s w (Ended TypeError)
  | Some b =>
      if b && running s then mkState s w (AtSleep elapsed)
      else outer_test s w
  end.

(** From one wait to the next.  [None]: the event cannot happen there. *)
Definition step (st : state) (ev : event) : option state :=
  match at_pc st, ev with
  | AtExec, Ran now now' l =>
      match execute_script (svc st) now now' l (wld st) with
      | (s1, w1, Normal) => Some (wait_test s1 w1 0)
      | (s1, w1, Raises (SystemExit code)) =>
          Some (mkState s1 w1 (Ended (Exited code)))
      | (s1, w1, Raises (AnException _)) =>
          Some (mkState s1 w1 (Ended (Exited 1)))
      end
  | AtSleep elapsed, Slept => Some (wait_test (svc st) (wld st) (elapsed + 1))
  | AtSleep elapsed, Signal signum =>
      let '(s1, w1, _) := signal_handler (svc st) signum (wld st) in
      Some (mkState s1 w1 (Ended (Exited 0)))
  | _, _ => None
  end.

(** The state after the events that can happen, and the number of
    [time.sleep(1)] calls that returned on the way. *)
Fixpoint steps (st : state) (evs : list event) : state * nat :=
  match evs with
  | [] => (st, O)
  | ev :: evs' =>
      match step st ev with
      | None => (st, O)
      | Some st' =>
          let '(st'', n) := steps st' evs' in
          (st'', match ev with Slept => S n | _ => n end)
      end
  end.

End Loop.

(** Lines 106-111, up to the first wait: the flag is now true, so the first
    execution starts. *)
Definition run (s : RunScriptService) (w : world) : state :=
  let s1 := set_running true s in
  let w1 := print (ServiceStarted (interval s1)) w in
  mkState s1 w1 AtExec.

(** ** main *)

Inductive outcome : Type :=
| Exit (code : Z) (w : world)
| Serving (st : state).

Definition usage : string :=
  "Usage: python3 run_script_service.py set-interval <seconds>".

Definition invalid_interval : string :=
  "Invalid interval value. Must be an integer.".

Definition unknown_command_text : string :=
  "Unknown command. Use 'run' or 'set-interval <seconds>'".

(** Lines 131-153, with [argv] for [sys.argv].  A [main] that returns ends
    the process with status 0. *)
Definition main (argv : list string) (w : world) : outcome :=
  let '(service, w1) := init w in
  if (1 <? Z.of_nat (List.length argv)) then
    let command := nth 1 argv EmptyString in
    if (command =? "set-interval")%string then
      if negb (Z.of_nat (List.length argv) =? 3) then
        Exit 1 (print (Text usage) w1)
      else
        match Py.int (nth 2 argv EmptyString) with
        | Some n =>
            let '(_, w2) := set_interval service n w1 in Exit 0 w2
        | None =>
            Exit 1 (print (Text invalid_interval) w1)
        end
    else if (command =? "run")%string then Serving (run service w1)
    else Exit 1 (print (Text unknown_command_text) w1)
  else Serving (run service w1).

(** ** Notions the properties are stated with *)

Definition prog : string := "run_script_service.py".

(** A world with neither file, nothing opened and nothing printed. *)
Definition world0 : world := mkWorld None None [] [].

(** The lines of the log as [readlines] sees them. *)
Definition log_lines (w : world) : list string :=
  match log_file w with
  | Some text => Py.readlines text
  | None => []
  end.

Definition line_count (w : world) : Z := Z.of_nat (List.length (log_lines w)).

(** The text of the log, empty when there is no file. *)
Definition log_text (w : world) : string :=
  match log_file w with
  | Some text => text
  | None => EmptyString
  end.

(** The opens that can change a file. *)
Definition is_write (o : file * mode) : bool :=
  match snd o with
  | ModeR => false
  | _ => true
  end.

Definition writes (w : world) : list (file * mode) :=
  List.filter is_write (opened w).

(** The separator line of the log format. *)
Definition dashes : string :=
  "--------------------------------------------------".

(** The last [n] elements of a list. *)
Definition tail_lines {A} (n : Z) (l : list A) : list A :=
  skipn (List.length l - Z.to_nat n)%nat l.



(** The configuration file as [set-interval n] leaves it: a JSON object
    with the one key [interval], indented by two blanks. *)
Definition config_text (n : Z) : string :=
  "{" ++ Py.nl ++ "  " ++ String Py.DQ "interval" ++ String Py.DQ ": "
  ++ Py.str_int n ++ Py.nl ++ "}".

(** The command lines the interface rejects. *)
Inductive invalid_invocation : list string -> Prop :=
| missing_argument (p : string) :
    invalid_invocation [p; "set-interval"]
| extra_argument (p a b : string) (more : list string) :
    invalid_invocation (p :: "set-interval" :: a :: b :: more)
| non_integer_argument (p a : string) :
    Py.int a = None -> invalid_invocation [p; "set-interval"; a]
| unknown_command (p c : string) (more : list string) :
    c <> "set-interval" -> c <> "run" -> invalid_invocation (p :: c :: more).

(** The entry of a completed execution as the log format lays it out, one
    element per line. *)
Definition entry_lines (timestamp : string) (returncode : Z)
  (stdout stderr : string) : list string :=
  ["[" ++ timestamp ++ "] Exit code: " ++ Py.str_int returncode]
  ++ (if (stdout =? "")%string then [] else ["STDOUT: " ++ Py.strip stdout])
  ++ (if (stderr =? "")%string then [] else ["STDERR: " ++ Py.strip stderr])
  ++ [dashes].

Definition unlines (ls : list string) : string :=
  List.fold_right (fun l t => l ++ Py.nl ++ t) EmptyString ls.

(** A text without line feed or carriage return. *)
Fixpoint plain (s : string) : Prop :=
  match s with
  | String c r => c <> Py.LF /\ c <> Py.CR /\ plain r
  | EmptyString => True
  end.

Fixpoint no_cr (s : string) : Prop :=
  match s with
  | String c r => c <> Py.CR /\ no_cr r
  | EmptyString => True
  end.

(** Lines as [readlines] yields them: each ends in a line feed, except
    that the last may be a non-empty text without one. *)
Inductive well_formed_lines : list string -> Prop :=
| wf_none : well_formed_lines []
| wf_last (b : string) :
    plain b -> b <> EmptyString -> well_formed_lines [b]
| wf_more (b : string) (ls : list string) :
    plain b -> well_formed_lines ls ->
    well_formed_lines ((b ++ Py.nl) :: ls).



(** A launch during which a signal arrived. *)
Definition interrupted (l : launch) : bool :=
  match l with
  | Signalled _ => true
  | _ => false
  end.

(** The values an [int] can be compared with by [<]: [int], [bool] and
    [float]. *)
Definition numeric (v : json) : bool :=
  match v with
  | JInt _ | JBool _ | JFloat _ => true
  | _ => false
  end.

(** How the service loop can be found after some events: still going, or
    ended in one of two ways. *)
Definition going_or_signalled (st : state) : Prop :=
  match at_pc st with
  | AtExec | AtSleep _ => running (svc st) = true
  | Ended (Exited code) => code = 0 /\ running (svc st) = false
  | Ended TypeError => running (svc st) = true
  | Ended LoopLeft => False
  end.

(** A text of white space only. *)
Fixpoint all_space (s : string) : bool :=
  match s with
  | String c r => Py.isspace c && all_space r
  | EmptyString => true
  end.

(** A log of [n] one-character lines. *)
Fixpoint log_of (n : nat) : string :=
  match n with
  | O => EmptyString
  | S k => String "x" (String Py.LF (log_of k))
  end.

(** * Properties *)

(** ** Characters and decimal numerals *)






Lemma append_assoc (a b c : string) : (a ++ b) ++ c = a ++ (b ++ c).
Proof. induction a as [|x a IH]; simpl; [reflexivity|]. now rewrite IH. Qed.

Lemma append_nil_r (a : string) : a ++ "" = a.
Proof. induction a as [|x a IH]; simpl; [reflexivity|]. now rewrite IH. Qed.




(** *** Facts about a digit *)






(** *** [int] reads what [str] writes *)





(** ** The decoder on a decimal numeral *)








(** ** The decoder never runs out of fuel *)

Ltac break_match_in H :=
  match type of H with
  | context [match ?x with _ => _ end] => destruct x eqn:?
  end.

Lemma skip_ws_length (s : string) :
  (String.length (skip_ws s) <= String.length s)%nat.
Proof.
  induction s as [|c s IH]; cbn [skip_ws]; [lia|].
  destruct (is_ws c); cbn [String.length]; lia.
Qed.

Lemma scanstring_shorter (n : nat) :
  forall (s : string) (acc k : list N) (r : string),
    (String.length s <= n)%nat ->
    scanstring s acc = Some (k, r) ->
    (String.length r < String.length s)%nat.
Proof.
  induction n as [|n IH]; intros s acc k r Hn H;
    (destruct s as [|c s]; [discriminate|]); cbn [String.length] in Hn;
    [lia|].
  cbn [scanstring] in H.
  repeat (break_match_in H; try discriminate);
    try (injection H as <- <-; cbn [String.length]; lia);
    try (apply IH in H; cbn [String.length] in *; lia).
Qed.

Lemma span_digits_length (s ds r : string) :
  span_digits s = (ds, r) -> (String.length r <= String.length s)%nat.
Proof.
  revert ds r. induction s as [|c s IH]; intros ds r H; cbn [span_digits] in H.
  - injection H as <- <-. cbn. lia.
  - destruct (Py.is_digit c).
    + destruct (span_digits s) as [ds' r'] eqn:E. injection H as <- <-.
      specialize (IH _ _ eq_refl). cbn [String.length]. lia.
    + injection H as <- <-. lia.
Qed.

Lemma match_fraction_length (s fp r : string) :
  match_fraction s = (fp, r) -> (String.length r <= String.length s)%nat.
Proof.
  unfold match_fraction. intros H.
  repeat (break_match_in H; try discriminate);
    try (injection H as <- <-; subst; cbn [String.length]; lia).
  injection H as <- <-.
  match goal with
  | E : span_digits _ = _ |- _ => apply span_digits_length in E
  end.
  cbn [String.length] in *. lia.
Qed.

Lemma exponent_sign_length (r sign r1 : string) :
  match r with
  | String g r' =>
      if ((g =? "-")%char || (g =? "+")%char)%bool
      then (String g EmptyString, r') else (EmptyString, r)
  | EmptyString => (EmptyString, r)
  end = (sign, r1) ->
  (String.length r1 <= String.length r)%nat.
Proof.
  intros H. destruct r as [|g r']; [injection H as <- <-; lia|].
  destruct ((g =? "-")%char || (g =? "+")%char)%bool;
    injection H as <- <-; cbn [String.length]; lia.
Qed.

Lemma match_exponent_length (s ep r : string) :
  match_exponent s = (ep, r) -> (String.length r <= String.length s)%nat.
Proof.
  unfold match_exponent. intros H.
  destruct s as [|e s']; [injection H as <- <-; lia|].
  destruct ((e =? "e")%char || (e =? "E")%char)%bool;
    [|injection H as <- <-; lia].
  destruct (match s' with
            | String g r' =>
                if ((g =? "-")%char || (g =? "+")%char)%bool
                then (String g EmptyString, r') else (EmptyString, s')
            | EmptyString => (EmptyString, s')
            end) as [sign r1] eqn:Esign.
  apply exponent_sign_length in Esign.
  destruct (span_digits r1) as [ds rest] eqn:Eds.
  apply span_digits_length in Eds.
  destruct ds; injection H as <- <-; cbn [String.length] in *; lia.
Qed.

Lemma match_number_shorter (s : string) (v : json) (r : string) :
  match_number s = Some (v, r) -> (String.length r < String.length s)%nat.
Proof.
  unfold match_number. intros H.
  destruct (match s with
            | String c r0 => if (c =? "-")%char then (true, r0) else (false, s)
            | EmptyString => (false, s)
            end) as [neg s1] eqn:Eneg.
  assert (Hs1 : (String.length s1 <= String.length s)%nat).
  { destruct s as [|c r0]; [injection Eneg as <- <-; lia|].
    destruct (c =? "-")%char; injection Eneg as <- <-;
      cbn [String.length]; lia. }
  destruct s1 as [|c r0]; [discriminate|].
  destruct (Py.is_digit c) eqn:Ed; [|discriminate].
  destruct (if (c =? "0")%char then (String c EmptyString, r0)
            else span_digits (String c r0)) as [ip r1] eqn:Eip.
  assert (Hr1 : (String.length r1 <= String.length r0)%nat).
  { destruct (c =? "0")%char; [injection Eip as <- <-; lia|].
    cbn [span_digits] in Eip. rewrite Ed in Eip.
    destruct (span_digits r0) as [ds' r'] eqn:E. injection Eip as <- <-.
    now apply span_digits_length in E. }
  destruct (match_fraction r1) as [fp r2] eqn:Efp.
  apply match_fraction_length in Efp.
  destruct (match_exponent r2) as [ep r3] eqn:Eep.
  apply match_exponent_length in Eep.
  cbn [String.length] in Hs1.
  destruct fp; destruct ep; injection H as <- <-; lia.
Qed.
Lemma strip_prefix_length (p s r : string) :
  strip_prefix p s = Some r ->
  String.length s = (String.length p + String.length r)%nat.
Proof.
  revert s. induction p as [|a p IH]; intros s H; cbn [strip_prefix] in H.
  - injection H as <-. reflexivity.
  - destruct s as [|b s]; [discriminate|].
    destruct (a =? b)%char; [|discriminate].
    cbn [String.length]. now rewrite (IH _ H).
Qed.

Lemma scan_atom_shorter (s : string) (v : json) (r : string) :
  scan_atom s = Ok (v, r) -> (String.length r < String.length s)%nat.
Proof.
  unfold scan_atom. intros H.
  repeat match type of H with
    | context [strip_prefix ?p s] =>
        destruct (strip_prefix p s) as [r0|] eqn:E;
        [injection H as <- <-; apply strip_prefix_length in E;
         cbn [String.length] in E; lia|clear E]
    end.
  destruct (match_number s) as [[v0 r0]|] eqn:E; [|discriminate].
  injection H as <- <-. now apply match_number_shorter in E.
Qed.

Lemma scan_atom_fuel (s : string) : scan_atom s <> OutOfFuel.
Proof.
  unfold scan_atom.
  repeat match goal with
    | |- context [strip_prefix ?p s] =>
        destruct (strip_prefix p s); [discriminate|]
    end.
  destruct (match_number s) as [[v0 r0]|]; discriminate.
Qed.

(** With the length of [skip_ws x] known after a case analysis on it. *)
Ltac ws_bound x E :=
  let L := fresh "L" in
  pose proof (skip_ws_length x) as L; rewrite E in L;
  cbn [String.length] in L.

(** What is left after a value is shorter than what was there before. *)
Lemma scan_shorter (fuel : nat) :
  (forall s v r,
     scan_once fuel s = Ok (v, r) ->
     (String.length r < String.length s)%nat)
  /\ (forall s acc v r,
        parse_array fuel s acc = Ok (v, r) ->
        (String.length r < String.length s)%nat)
  /\ (forall s acc v r,
        parse_object fuel s acc = Ok (v, r) ->
        (String.length r < String.length s)%nat).
Proof.
  induction fuel as [|f (IHs & IHa & IHo)];
    [repeat split; intros; discriminate|].
  split; [|split].
  - intros s v r H. cbn [scan_once] in H.
    destruct s as [|c s]; [discriminate|]. cbn [String.length].
    destruct (c =? Py.DQ)%char.
    { destruct (scanstring s []) as [[cps rest]|] eqn:E; [|discriminate].
      injection H as <- <-.
      apply (scanstring_shorter _ _ _ _ _ (Nat.le_refl _)) in E. lia. }
    destruct (c =? "[")%char.
    { destruct (skip_ws s) as [|d r'] eqn:E; [discriminate|]. ws_bound s E.
      destruct (d =? "]")%char; [injection H as <- <-; lia|].
      apply IHa in H. cbn [String.length] in H. lia. }
    destruct (c =? "{")%char.
    { destruct (skip_ws s) as [|d r'] eqn:E; [discriminate|]. ws_bound s E.
      destruct (d =? "}")%char; [injection H as <- <-; lia|].
      apply IHo in H. cbn [String.length] in H. lia. }
    apply scan_atom_shorter in H. cbn [String.length] in H. lia.
  - intros s acc v r H. cbn [parse_array] in H.
    destruct (scan_once f s) as [[v0 r0]| |] eqn:E; try discriminate.
    apply IHs in E.
    destruct (skip_ws r0) as [|c r'] eqn:E0; [discriminate|]. ws_bound r0 E0.
    destruct (c =? "]")%char; [injection H as <- <-; lia|].
    destruct (c =? ",")%char; [|discriminate].
    apply IHa in H. pose proof (skip_ws_length r'). lia.
  - intros s acc v r H. cbn [parse_object] in H.
    destruct s as [|q s]; [discriminate|]. cbn [String.length].
    destruct (q =? Py.DQ)%char; [|discriminate].
    destruct (scanstring s []) as [[k r1]|] eqn:Ek; [|discriminate].
    apply (scanstring_shorter _ _ _ _ _ (Nat.le_refl _)) in Ek.
    destruct (skip_ws r1) as [|c r2] eqn:E1; [discriminate|]. ws_bound r1 E1.
    destruct (c =? ":")%char; [|discriminate].
    destruct (scan_once f (skip_ws r2)) as [[v0 r3]| |] eqn:E; try discriminate.
    apply IHs in E. pose proof (skip_ws_length r2).
    destruct (skip_ws r3) as [|e r4] eqn:E3; [discriminate|]. ws_bound r3 E3.
    destruct (e =? "}")%char; [injection H as <- <-; lia|].
    destruct (e =? ",")%char; [|discriminate].
    apply IHo in H. pose proof (skip_ws_length r4). lia.
Qed.

(** Twice the length of the text, and one or two more, is fuel enough. *)
Lemma scan_fuel (fuel : nat) :
  (forall s,
     (2 * String.length s + 1 <= fuel)%nat -> scan_once fuel s <> OutOfFuel)
  /\ (forall s acc,
        (2 * String.length s + 2 <= fuel)%nat ->
        parse_array fuel s acc <> OutOfFuel)
  /\ (forall s acc,
        (2 * String.length s + 2 <= fuel)%nat ->
        parse_object fuel s acc <> OutOfFuel).
Proof.
  induction fuel as [|f (IHs & IHa & IHo)]; [repeat split; intros; lia|].
  destruct (scan_shorter f) as (Ss & Sa & So).
  split; [|split].
  - intros s Hf. cbn [scan_once].
    destruct s as [|c s]; [discriminate|]. cbn [String.length] in Hf.
    destruct (c =? Py.DQ)%char.
    { destruct (scanstring s []) as [[cps rest]|]; discriminate. }
    destruct (c =? "[")%char.
    { destruct (skip_ws s) as [|d r'] eqn:E; [discriminate|]. ws_bound s E.
      destruct (d =? "]")%char; [discriminate|].
      apply IHa. cbn [String.length]. lia. }
    destruct (c =? "{")%char.
    { destruct (skip_ws s) as [|d r'] eqn:E; [discriminate|]. ws_bound s E.
      destruct (d =? "}")%char; [discriminate|].
      apply IHo. cbn [String.length]. lia. }
    apply scan_atom_fuel.
  - intros s acc Hf. cbn [parse_array].
    destruct (scan_once f s) as [[v0 r0]| |] eqn:E; [|discriminate|].
    + apply Ss in E.
      destruct (skip_ws r0) as [|c r'] eqn:E0; [discriminate|].
      ws_bound r0 E0.
      destruct (c =? "]")%char; [discriminate|].
      destruct (c =? ",")%char; [|discriminate].
      apply IHa. pose proof (skip_ws_length r'). lia.
    + exfalso. apply (IHs s); [lia|assumption].
  - intros s acc Hf. cbn [parse_object].
    destruct s as [|q s]; [discriminate|]. cbn [String.length] in Hf.
    destruct (q =? Py.DQ)%char; [|discriminate].
    destruct (scanstring s []) as [[k r1]|] eqn:Ek; [|discriminate].
    apply (scanstring_shorter _ _ _ _ _ (Nat.le_refl _)) in Ek.
    destruct (skip_ws r1) as [|c r2] eqn:E1; [discriminate|]. ws_bound r1 E1.
    destruct (c =? ":")%char; [|discriminate].
    pose proof (skip_ws_length r2).
    destruct (scan_once f (skip_ws r2)) as [[v0 r3]| |] eqn:E;
      [|discriminate|].
    + apply Ss in E.
      destruct (skip_ws r3) as [|e r4] eqn:E3; [discriminate|].
      ws_bound r3 E3.
      destruct (e =? "}")%char; [discriminate|].
      destruct (e =? ",")%char; [|discriminate].
      apply IHo. pose proof (skip_ws_length r4). lia.
    + exfalso. apply (IHs (skip_ws r2)); [lia|assumption].
Qed.

(** [json.load] either yields a value or raises: the fuel that
    [json_loads] supplies is never used up. *)
Lemma json_load_total (text : string) : json_load text <> OutOfFuel.
Proof.
  unfold json_load, json_loads.
  set (s := Py.universal_newlines text).
  destruct (scan_once (2 * String.length s + 1) (skip_ws s))
    as [[v r]| |] eqn:E.
  - destruct (skip_ws r); discriminate.
  - discriminate.
  - exfalso. revert E. apply (proj1 (scan_fuel _)).
    pose proof (skip_ws_length s). lia.
Qed.

(** ** The configuration file is read back as written *)




Lemma universal_newlines_no_cr (s : string) :
  no_cr s -> Py.universal_newlines s = s.
Proof.
  induction s as [|c s IH]; [reflexivity|].
  intros [Hc Hs]. cbn [Py.universal_newlines].
  apply Ascii.eqb_neq in Hc. rewrite Hc. now rewrite IH.
Qed.

Lemma no_cr_app (a b : string) : no_cr a -> no_cr b -> no_cr (a ++ b).
Proof.
  induction a as [|c a IH]; simpl; [auto|].
  intros [Hc Ha] Hb. split; auto.
Qed.







(** ** Start-up: what [__init__] reads and leaves *)


Lemma init_frame (w : world) :
  config_file (snd (init w)) = config_file w
  /\ log_file (snd (init w)) = log_file w
  /\ (opened (snd (init w)) = opened w
      \/ opened (snd (init w)) = (opened w ++ [(ConfigFile, ModeR)])%list)
  /\ running (fst (init w)) = false
  /\ max_log_lines (fst (init w)) = 100.
Proof.
  unfold init, load_config. destruct (config_file w) as [text|] eqn:E.
  - destruct (json_load text) as [config| |];
      [destruct (config_get config)|..]; cbn; rewrite E; auto 10.
  - cbn. rewrite E. auto 10.
Qed.


(** ** The [set-interval] command *)










(** ** Command lines *)

Ltac rejected :=
  split; [reflexivity|]; split; [discriminate|];
  split; [cbn [List.In]; auto|]; split; [reflexivity|]; auto.

(** C9 (confirmed).  With no argument [main] does exactly what it does
    with the one argument [run]: it enters the service loop with the
    service that [__init__] built from the configuration. *)
Theorem no_argument_is_run (p : string) (w : world) :
  main [p] w = main [p; "run"] w
  /\ main [p] w = Serving (run (fst (init w)) (snd (init w))).
Proof.
  unfold main. destruct (init w) as [service w1]. split; reflexivity.
Qed.

(** C5 (confirmed).  Every invalid command line ends the process with
    status 1 after one more message on standard output, the usage line,
    the invalid-interval line or the unknown-command line; neither file
    has changed and nothing was opened except, possibly, the configuration
    for reading at start-up. *)
Theorem invalid_invocation_rejected (argv : list string) (w : world) :
  invalid_invocation argv ->
  exists (w' : world) (msg : string),
    main argv w = Exit 1 w'
    /\ 1 <> 0
    /\ List.In msg [usage; invalid_interval; unknown_command_text]
    /\ console w' = (console (snd (init w)) ++ [Text msg])%list
    /\ config_file w' = config_file w
    /\ log_file w' = log_file w
    /\ (opened w' = opened w
        \/ opened w' = (opened w ++ [(ConfigFile, ModeR)])%list).
Proof.
  intros Hinv.
  destruct (init_frame w) as (Hc & Hl & Ho & _).
  unfold main. destruct (init w) as [service w1]. cbn [fst snd] in *.
  destruct Hinv as [p | p a b more | p a Ha | p c more Hc1 Hc2].
  - exists (print (Text usage) w1), usage. cbn. rejected.
  - exists (print (Text usage) w1), usage.
    cbn [List.length nth].
    replace (1 <? Z.of_nat (S (S (S (S (List.length more)))))) with true
      by (symmetry; apply Z.ltb_lt; lia).
    change ("set-interval" =? "set-interval")%string with true. cbv iota.
    replace (Z.of_nat (S (S (S (S (List.length more)))))  =? 3) with false
      by (symmetry; apply Z.eqb_neq; lia).
    cbn. rejected.
  - exists (print (Text invalid_interval) w1), invalid_interval.
    cbn [List.length nth]. change (1 <? Z.of_nat 3) with true.
    change ("set-interval" =? "set-interval")%string with true.
    change (negb (Z.of_nat 3 =? 3)) with false. cbv iota.
    rewrite Ha. cbn. rejected.
  - exists (print (Text unknown_command_text) w1), unknown_command_text.
    cbn [List.length nth].
    replace (1 <? Z.of_nat (S (S (List.length more)))) with true
      by (symmetry; apply Z.ltb_lt; lia).
    apply String.eqb_neq in Hc1, Hc2. rewrite Hc1, Hc2. cbn. rejected.
Qed.

Lemma invalid_invocation_rejected_witness :
  exists (w' : world) (msg : string),
    main [prog; "set-interval"; "abc"] world0 = Exit 1 w'
    /\ 1 <> 0
    /\ List.In msg [usage; invalid_interval; unknown_command_text]
    /\ console w' = (console (snd (init world0)) ++ [Text msg])%list
    /\ config_file w' = config_file world0
    /\ log_file w' = log_file world0
    /\ (opened w' = opened world0
        \/ opened w' = (opened world0 ++ [(ConfigFile, ModeR)])%list).
Proof.
  exact (invalid_invocation_rejected [prog; "set-interval"; "abc"] world0
           (non_integer_argument prog "abc" eq_refl)).
Defined.

(** ** Lines: reading back what was written *)

Lemma universal_newlines_sound (s : string) :
  no_cr (Py.universal_newlines s).
Proof.
  induction s as [|c s IH]; [exact I|].
  cbn [Py.universal_newlines]. destruct (c =? Py.CR)%char eqn:E.
  - destruct s as [|d r].
    + cbn. split; [discriminate|exact I].
    + destruct (d =? Py.LF)%char eqn:E'.
      * apply Ascii.eqb_eq in E'. subst d.
        cbn [Py.universal_newlines] in IH.
        change (Py.LF =? Py.CR)%char with false in IH. cbv iota in IH.
        exact IH.
      * split; [discriminate|exact IH].
  - apply Ascii.eqb_neq in E. split; assumption.
Qed.


Lemma split_lines_wf (t : string) :
  no_cr t -> well_formed_lines (Py.split_lines t).
Proof.
  induction t as [|c t IH]; [constructor|].
  intros [Hc Ht]. specialize (IH Ht). cbn [Py.split_lines].
  destruct (c =? Py.LF)%char eqn:E.
  - apply (wf_more EmptyString); [exact I|assumption].
  - apply Ascii.eqb_neq in E.
    inversion IH as [Hnil | b Hb Hne Heq | b ls Hb Hls Heq].
    + apply wf_last; [cbn; auto|discriminate].
    + apply wf_last; [cbn; auto|discriminate].
    + apply (wf_more (String c b)); [cbn; auto|assumption].
Qed.

Lemma readlines_wf (text : string) : well_formed_lines (Py.readlines text).
Proof. apply split_lines_wf, universal_newlines_sound. Qed.

Lemma split_lines_plain (b : string) :
  plain b -> b <> EmptyString -> Py.split_lines b = [b].
Proof.
  induction b as [|c b IH]; [congruence|].
  intros (H1 & H2 & Hb) _. cbn [Py.split_lines].
  apply Ascii.eqb_neq in H1. rewrite H1.
  destruct b as [|d b']; [reflexivity|].
  rewrite IH by (assumption || discriminate). reflexivity.
Qed.

Lemma split_lines_line (b t : string) :
  plain b -> Py.split_lines ((b ++ Py.nl) ++ t) = (b ++ Py.nl) :: Py.split_lines t.
Proof.
  induction b as [|c b IH]; [reflexivity|].
  intros (H1 & H2 & Hb). cbn [String.append Py.split_lines].
  apply Ascii.eqb_neq in H1. rewrite H1. now rewrite (IH Hb).
Qed.

Lemma plain_no_cr (b : string) : plain b -> no_cr b.
Proof.
  induction b as [|c b IH]; simpl; [auto|]. intros (_ & H & Hb). auto.
Qed.

Lemma writelines_no_cr (ls : list string) :
  well_formed_lines ls -> no_cr (Py.writelines ls).
Proof.
  unfold Py.writelines.
  induction 1 as [| b Hb Hne | b ls Hb Hls IH]; cbn [fold_right].
  - exact I.
  - apply no_cr_app; [now apply plain_no_cr|exact I].
  - apply no_cr_app; [|exact IH].
    apply no_cr_app; [now apply plain_no_cr|].
    split; [discriminate|exact I].
Qed.

(** [readlines] returns the very lines [writelines] wrote. *)
Lemma readlines_writelines (ls : list string) :
  well_formed_lines ls -> Py.readlines (Py.writelines ls) = ls.
Proof.
  intros Hwf. unfold Py.readlines.
  rewrite universal_newlines_no_cr by now apply writelines_no_cr.
  unfold Py.writelines.
  induction Hwf as [| b Hb Hne | b ls Hb Hls IH]; cbn [fold_right].
  - reflexivity.
  - rewrite append_nil_r. now apply split_lines_plain.
  - rewrite split_lines_line by assumption. now rewrite IH.
Qed.

Lemma skipn_wf (n : nat) (ls : list string) :
  well_formed_lines ls -> well_formed_lines (skipn n ls).
Proof.
  intros Hwf. revert n.
  induction Hwf as [| b Hb Hne | b ls Hb Hls IH]; intros [|n];
    cbn [skipn]; try rewrite skipn_nil;
    solve [constructor; assumption | apply IH].
Qed.

Lemma slice_from_tail (m : Z) (ls : list string) :
  0 < m -> m < Z.of_nat (List.length ls) ->
  Py.slice_from (- m) ls = tail_lines m ls.
Proof.
  intros H0 H1. unfold Py.slice_from, tail_lines.
  replace (- m <? 0) with true by (symmetry; apply Z.ltb_lt; lia).
  f_equal. lia.
Qed.

(** ** Trimming the log *)

Lemma trim_log_over (s : RunScriptService) (w : world) (text : string) :
  log_file w = Some text ->
  Z.of_nat (List.length (Py.readlines text)) > max_log_lines s ->
  trim_log s w
  = write_file LogFile
      (Py.writelines (Py.slice_from (- max_log_lines s) (Py.readlines text)))
      (note_open LogFile ModeR w).
Proof.
  intros H Hlen. unfold trim_log. rewrite H.
  replace (Z.of_nat (List.length (Py.readlines text)) >? max_log_lines s)
    with true by (symmetry; apply Z.gtb_lt; lia).
  reflexivity.
Qed.

Lemma trim_log_within (s : RunScriptService) (w : world) (text : string) :
  log_file w = Some text ->
  Z.of_nat (List.length (Py.readlines text)) <= max_log_lines s ->
  trim_log s w = note_open LogFile ModeR w.
Proof.
  intros H Hlen. unfold trim_log. rewrite H.
  destruct (Z.of_nat (List.length (Py.readlines text)) >? max_log_lines s)
    eqn:E; [|reflexivity].
  apply Z.gtb_lt in E. lia.
Qed.

Lemma tail_lines_length {A} (n : Z) (l : list A) :
  0 <= n <= Z.of_nat (List.length l) ->
  Z.of_nat (List.length (tail_lines n l)) = n.
Proof. intros H. unfold tail_lines. rewrite length_skipn. lia. Qed.

Lemma trim_log_over_lines (s : RunScriptService) (w : world) :
  0 < max_log_lines s ->
  line_count w > max_log_lines s ->
  log_lines (trim_log s w) = tail_lines (max_log_lines s) (log_lines w).
Proof.
  intros Hmax Hover. unfold line_count, log_lines in *.
  destruct (log_file w) as [text|] eqn:E; [|cbn in Hover; lia].
  rewrite (trim_log_over s w text E) by lia.
  cbn [write_file set_content log_file].
  rewrite slice_from_tail by lia.
  apply readlines_writelines, skipn_wf, readlines_wf.
Qed.

(** C4 (confirmed).  When the log has more than [max_log_lines] lines,
    trimming leaves exactly [max_log_lines] lines, and they are the last
    [max_log_lines] lines the log had, whatever entry they belong to. *)
Theorem trim_log_keeps_tail (s : RunScriptService) (w : world) :
  0 < max_log_lines s ->
  line_count w > max_log_lines s ->
  log_lines (trim_log s w) = tail_lines (max_log_lines s) (log_lines w)
  /\ line_count (trim_log s w) = max_log_lines s.
Proof.
  intros Hmax Hover.
  pose proof (trim_log_over_lines s w Hmax Hover) as Hlines.
  split; [exact Hlines|].
  unfold line_count in *. rewrite Hlines.
  apply tail_lines_length. lia.
Qed.

Lemma trim_log_keeps_tail_witness :
  let s := fst (init world0) in
  let w := mkWorld None (Some (log_of 101)) [] [] in
  0 < max_log_lines s /\ line_count w > max_log_lines s
  /\ log_lines (trim_log s w) = tail_lines (max_log_lines s) (log_lines w)
  /\ line_count (trim_log s w) = max_log_lines s.
Proof.
  intros s w.
  assert (H0 : 0 < max_log_lines s) by reflexivity.
  assert (H1 : line_count w > max_log_lines s) by reflexivity.
  split; [exact H0|]. split; [exact H1|].
  exact (trim_log_keeps_tail s w H0 H1).
Defined.

Lemma writes_note_read (f : file) (w : world) :
  writes (note_open f ModeR w) = writes w.
Proof.
  unfold writes. cbn [note_open opened]. rewrite filter_app. cbn.
  apply app_nil_r.
Qed.

(** C10 (confirmed).  A log of at most [max_log_lines] lines is read and
    left as it is, with no file opened for writing; and when there is no
    log, trimming does nothing at all, so none is created. *)
Theorem trim_log_no_op (s : RunScriptService) (w : world) :
  (forall text : string,
     log_file w = Some text ->
     Z.of_nat (List.length (Py.readlines text)) <= max_log_lines s ->
     log_file (trim_log s w) = Some text
     /\ config_file (trim_log s w) = config_file w
     /\ writes (trim_log s w) = writes w)
  /\ (log_file w = None -> trim_log s w = w).
Proof.
  split.
  - intros text H Hlen. rewrite (trim_log_within s w text H Hlen).
    rewrite writes_note_read. auto.
  - intros H. unfold trim_log. now rewrite H.
Qed.

Lemma trim_log_no_op_witness :
  let s := fst (init world0) in
  let w := mkWorld None (Some (log_of 100)) [] [] in
  (log_file (trim_log s w) = Some (log_of 100)
   /\ config_file (trim_log s w) = config_file w
   /\ writes (trim_log s w) = writes w)
  /\ trim_log s world0 = world0.
Proof.
  intros s w. split.
  - apply (proj1 (trim_log_no_op s w) (log_of 100) eq_refl).
    vm_compute. discriminate.
  - exact (proj2 (trim_log_no_op s world0) eq_refl).
Defined.

Lemma trim_log_bounded (s : RunScriptService) (w : world) :
  0 < max_log_lines s -> line_count (trim_log s w) <= max_log_lines s.
Proof.
  intros Hmax.
  destruct (Z_gt_le_dec (line_count w) (max_log_lines s)) as [Hover|Hle].
  - unfold line_count in *. rewrite (trim_log_over_lines s w Hmax Hover).
    rewrite tail_lines_length; lia.
  - unfold line_count, log_lines in *.
    destruct (log_file w) as [text|] eqn:E.
    + rewrite (trim_log_within s w text E Hle).
      cbn [note_open log_file]. now rewrite E.
    + unfold trim_log. rewrite E. now rewrite E.
Qed.

(** ** One execution *)

Lemma separator_dashes : separator = dashes ++ Py.nl.
Proof. reflexivity. Qed.

Lemma dashes_length : String.length dashes = 50%nat.
Proof. reflexivity. Qed.

Lemma eqb_empty (s : string) :
  (s =? "")%string = match s with EmptyString => true | _ => false end.
Proof. destruct s; reflexivity. Qed.

Lemma log_entry_lines (now : string) (rc : Z) (out err : string) :
  log_entry now rc out err = unlines (entry_lines now rc out err).
Proof.
  unfold log_entry, entry_lines. rewrite !eqb_empty, separator_dashes.
  destruct out as [|o out]; destruct err as [|e err];
    cbn [unlines List.app fold_right];
    rewrite ?append_assoc, ?append_nil_r; reflexivity.
Qed.

Lemma execute_script_completed (s : RunScriptService) (now now' : string)
  (rc : Z) (out err : string) (w : world) :
  execute_script s now now' (Completed rc out err) w
  = (s,
     print (Text ("Script executed at " ++ now ++ ", exit code: "
                  ++ Py.str_int rc))
       (trim_log s (append_file LogFile (log_entry now rc out err) w)),
     Normal).
Proof. reflexivity. Qed.

Lemma execute_script_failed (s : RunScriptService) (now now' msg : string)
  (w : world) :
  execute_script s now now' (Failed msg) w
  = (s,
     print (Text ("Error executing script: " ++ msg))
       (append_file LogFile (error_msg now' msg) w),
     Normal).
Proof. reflexivity. Qed.


(** C6 (confirmed).  When the launch raises an exception, [execute_script]
    still returns normally, and the log has grown by the bracketed time
    stamp with [ERROR:] and the exception's message, then the separator
    line; the loop goes on to its wait. *)
Theorem launch_failure_is_logged (int_lt_float : Z -> string -> bool)
  (s : RunScriptService) (now now' msg : string) (w : world) :
  exists w',
    execute_script s now now' (Failed msg) w = (s, w', Normal)
    /\ log_file w'
       = Some (log_text w ++ "[" ++ now' ++ "] ERROR: " ++ msg ++ Py.nl
               ++ dashes ++ Py.nl)
    /\ step int_lt_float (mkState s w AtExec) (Ran now now' (Failed msg))
       = Some (wait_test int_lt_float s w' 0)
    /\ (forall n : Z,
          running s = true -> interval s = JInt n ->
          at_pc (wait_test int_lt_float s w' 0)
          = if 0 <? n then AtSleep 0 else AtExec).
Proof.
  eexists. split; [apply execute_script_failed|].
  split; [|split].
  - unfold append_file, log_text, error_msg. cbn. reflexivity.
  - reflexivity.
  - intros n Hrun Hint. unfold wait_test, outer_test, lt_interval.
    rewrite Hint, Hrun. destruct (0 <? n); reflexivity.
Qed.

Lemma launch_failure_is_logged_witness :
  let s := mkService true (JInt 3600) 100 in
  at_pc (wait_test (fun _ _ => false) s
           (print (Text ("Error executing script: " ++ "No such file"))
              (append_file LogFile
                 (error_msg "2024-01-01 00:00:00" "No such file") world0)) 0)
  = AtSleep 0.
Proof.
  intros s.
  destruct (launch_failure_is_logged (fun _ _ => false) s
              "2024-01-01 00:00:00" "2024-01-01 00:00:00" "No such file"
              world0) as (w' & Hexec & _ & _ & Hloop).
  rewrite execute_script_failed in Hexec. injection Hexec as <-.
  exact (Hloop 3600 eq_refl eq_refl).
Defined.

(** C2, in the code: with a log of 100 lines, an execution whose launch
    fails returns normally and leaves 102 lines, two more than
    [max_log_lines]: the handler appends and does not trim. *)
Theorem failed_launch_exceeds_bound :
  let s := fst (init world0) in
  let w := mkWorld None (Some (log_of 100)) [] [] in
  max_log_lines s = 100 /\ line_count w = 100
  /\ exists w',
       execute_script s "2024-01-01 00:00:00" "2024-01-01 00:00:00"
         (Failed "[Errno 2] No such file or directory: 'run.sh'") w
       = (s, w', Normal)
       /\ line_count w' = 102.
Proof.
  intros s w. split; [reflexivity|]. split; [reflexivity|].
  eexists. split; [apply execute_script_failed|]. vm_compute. reflexivity.
Qed.

(** On the other path the bound holds after every execution. *)
Lemma completed_execution_bounded (s : RunScriptService)
  (now now' : string) (rc : Z) (out err : string) (w : world) :
  0 < max_log_lines s ->
  line_count (snd (fst (execute_script s now now' (Completed rc out err) w)))
  <= max_log_lines s.
Proof.
  intros Hmax. rewrite execute_script_completed. cbn [fst snd].
  apply (trim_log_bounded s _ Hmax).
Qed.

(** ** The wait between two executions *)

Section Wait.

Variable int_lt_float : Z -> string -> bool.

Lemma step_ended (st : state) (e : ending) (ev : event) :
  at_pc st = Ended e -> step int_lt_float st ev = None.
Proof. intros H. unfold step. rewrite H. now destruct ev. Qed.

Lemma steps_ended (st : state) (e : ending) (evs : list event) :
  at_pc st = Ended e -> steps int_lt_float st evs = (st, O).
Proof.
  intros H. destruct evs as [|ev evs]; [reflexivity|].
  cbn [steps]. now rewrite (step_ended st e ev H).
Qed.

(** With the flag down the wait test never grants another sleep. *)
Lemma wait_test_stopped (s : RunScriptService) (w : world) (elapsed : Z) :
  running s = false ->
  exists e, at_pc (wait_test int_lt_float s w elapsed) = Ended e.
Proof.
  intros H. unfold wait_test, outer_test.
  destruct (lt_interval int_lt_float elapsed (interval s)) as [b|].
  - rewrite H, andb_false_r. now exists LoopLeft.
  - now exists TypeError.
Qed.

(** While the flag is up and the interval is not over, each return of
    [time.sleep(1)] leads to the next one-second sleep. *)
Lemma wait_goes_on (s : RunScriptService) (w : world) (elapsed n : Z) :
  running s = true -> interval s = JInt n -> elapsed + 1 < n ->
  step int_lt_float (mkState s w (AtSleep elapsed)) Slept
  = Some (mkState s w (AtSleep (elapsed + 1))).
Proof.
  intros Hrun Hint Hlt. cbn [step at_pc svc wld].
  unfold wait_test, lt_interval. rewrite Hint, Hrun.
  replace (elapsed + 1 <? n) with true by (symmetry; apply Z.ltb_lt; lia).
  reflexivity.
Qed.

(** A signal that arrives while the child runs ends the process too. *)
Lemma signal_during_execution (s : RunScriptService) (w : world)
  (now now' : string) (signum : Z) :
  exists st',
    step int_lt_float (mkState s w AtExec) (Ran now now' (Signalled signum))
    = Some st'
    /\ at_pc st' = Ended (Exited 0) /\ running (svc st') = false.
Proof. eexists. split; [reflexivity|]. split; reflexivity. Qed.

(** C8 (confirmed).  In the wait between two executions, a signal runs
    the handler, which lowers the run flag and ends the process with
    status 0: no further one-second sleep is made.  And the wait loop
    itself tests the flag after every one-second sleep: once the flag is
    down, at most the sleep in progress returns before the loop is left. *)
Theorem shutdown_within_one_sleep (st : state) (elapsed : Z) :
  at_pc st = AtSleep elapsed ->
  (forall (signum : Z) (evs : list event),
     exists st',
       step int_lt_float st (Signal signum) = Some st'
       /\ at_pc st' = Ended (Exited 0)
       /\ running (svc st') = false
       /\ steps int_lt_float st (Signal signum :: evs) = (st', O))
  /\ (running (svc st) = false ->
      (forall (ev : event) (st' : state),
         step int_lt_float st ev = Some st' ->
         exists e, at_pc st' = Ended e)
      /\ (forall evs : list event,
            (snd (steps int_lt_float st evs) <= 1)%nat)).
Proof.
  intros Hpc. split.
  - intros signum evs.
    set (st1 := mkState (set_running false (svc st))
                  (print (Text "Service stopping...")
                     (print (Text ("Received signal "
                                   ++ Py.str_int signum)) (wld st)))
                  (Ended (Exited 0))).
    assert (Hstep : step int_lt_float st (Signal signum) = Some st1).
    { unfold step. rewrite Hpc. reflexivity. }
    exists st1.
    split; [exact Hstep|]. split; [reflexivity|]. split; [reflexivity|].
    cbn [steps]. rewrite Hstep.
    now rewrite (steps_ended st1 (Exited 0) evs eq_refl).
  - intros Hrun.
    assert (Hnext : forall ev st',
               step int_lt_float st ev = Some st' ->
               exists e, at_pc st' = Ended e).
    { intros ev st' Hstep. unfold step in Hstep. rewrite Hpc in Hstep.
      destruct ev as [now now' l | | signum].
      - discriminate.
      - injection Hstep as <-. now apply wait_test_stopped.
      - injection Hstep as <-. now exists (Exited 0). }
    split; [exact Hnext|].
    intros [|ev evs]; [cbn; lia|]. cbn [steps].
    destruct (step int_lt_float st ev) as [st'|] eqn:Hstep; [|cbn; lia].
    destruct (Hnext ev st' Hstep) as [e He].
    rewrite (steps_ended st' e evs He). destruct ev; cbn; lia.
Qed.

End Wait.

Lemma shutdown_within_one_sleep_witness :
  let st := mkState (mkService true (JInt 3600) 100) world0 (AtSleep 5) in
  let st0 := mkState (mkService false (JInt 3600) 100) world0 (AtSleep 5) in
  (exists st',
     step (fun _ _ => false) st (Signal 15) = Some st'
     /\ at_pc st' = Ended (Exited 0)
     /\ running (svc st') = false
     /\ steps (fun _ _ => false) st [Signal 15; Slept; Slept] = (st', O))
  /\ (snd (steps (fun _ _ => false) st0 [Slept; Slept; Slept]) <= 1)%nat.
Proof.
  intros st st0. split.
  - exact (proj1 (shutdown_within_one_sleep (fun _ _ => false) st 5 eq_refl)
             15 [Slept; Slept]).
  - exact (proj2 (proj2 (shutdown_within_one_sleep (fun _ _ => false) st0 5
                           eq_refl) eq_refl) [Slept; Slept; Slept]).
Defined.

(** ** Nothing but [set-interval] writes the configuration *)

Lemma trim_log_config (s : RunScriptService) (w : world) :
  config_file (trim_log s w) = config_file w.
Proof.
  unfold trim_log. destruct (log_file w); [|reflexivity].
  destruct (_ >? _); reflexivity.
Qed.

Lemma execute_script_config (s : RunScriptService) (now now' : string)
  (l : launch) (w : world) :
  config_file (snd (fst (execute_script s now now' l w))) = config_file w.
Proof.
  destruct l as [rc out err | msg | signum]; [|reflexivity..].
  rewrite execute_script_completed. cbn [fst snd print config_file].
  now rewrite trim_log_config.
Qed.

Lemma step_config (int_lt_float : Z -> string -> bool) (st st' : state)
  (ev : event) :
  step int_lt_float st ev = Some st' ->
  config_file (wld st') = config_file (wld st).
Proof.
  unfold step. intros H.
  destruct (at_pc st) as [|elapsed|e]; destruct ev as [now now' l| |signum];
    try discriminate.
  - pose proof (execute_script_config (svc st) now now' l (wld st)) as Hc.
    destruct (execute_script (svc st) now now' l (wld st)) as [[s1 w1] c].
    cbn [fst snd] in Hc.
    destruct c as [|[msg|code]]; injection H as <-; cbn [wld];
      try exact Hc.
    unfold wait_test, outer_test.
    destruct (lt_interval _ _ _) as [b|]; [|exact Hc].
    destruct (b && running s1); [exact Hc|].
    destruct (running s1); exact Hc.
  - injection H as <-. unfold wait_test, outer_test.
    destruct (lt_interval _ _ _) as [b|]; [|reflexivity].
    destruct (b && running (svc st)); [reflexivity|].
    destruct (running (svc st)); reflexivity.
  - injection H as <-. reflexivity.
Qed.

Lemma main_config (argv : list string) (w : world) :
  match main argv w with
  | Exit _ w' =>
      config_file w' = config_file w
      \/ exists n,
           nth 1 argv EmptyString = "set-interval"
           /\ Py.int (nth 2 argv EmptyString) = Some n
           /\ config_file w' = Some (config_text n)
  | Serving st => config_file (wld st) = config_file w
  end.
Proof.
  destruct (init_frame w) as (Hc & _).
  unfold main. destruct (init w) as [service w1]. cbn [snd] in Hc.
  destruct (1 <? Z.of_nat (List.length argv)); [|exact Hc].
  destruct (nth 1 argv EmptyString =? "set-interval")%string eqn:E1.
  - apply String.eqb_eq in E1.
    destruct (negb (Z.of_nat (List.length argv) =? 3)); [now left|].
    destruct (Py.int (nth 2 argv EmptyString)) as [n|] eqn:E2; [|now left].
    right. exists n. split; [assumption|]. split; reflexivity.
  - destruct (nth 1 argv EmptyString =? "run")%string; [exact Hc|now left].
Qed.

(** ** What [main] does with every command line *)












(** ** What a start loads, in every case *)


(** X5.  When the configuration file holds anything but a JSON object,
    malformed text or a well-formed list, number, string or [null] alike,
    start-up prints one error line and goes on with the defaults. *)
Theorem init_survives_bad_config (w : world) (text : string) :
  config_file w = Some text ->
  (forall d, json_load text <> Ok (JObject d)) ->
  init w = (mkService false (JInt 3600) 100,
            print ErrorLoadingConfig (note_open ConfigFile ModeR w)).
Proof.
  intros Hfile Hobj. unfold init, load_config. rewrite Hfile.
  destruct (json_load text) as [config| |]; [|reflexivity..].
  destruct config as [ | b | n | f | s | items | d]; try reflexivity.
  now destruct (Hobj d).
Qed.

Lemma init_survives_bad_config_witness :
  init (mkWorld (Some "[1, 2]") None [] [])
  = (mkService false (JInt 3600) 100,
     mkWorld (Some "[1, 2]") None [(ConfigFile, ModeR)] [ErrorLoadingConfig]).
Proof.
  apply (init_survives_bad_config (mkWorld (Some "[1, 2]") None [] [])
           "[1, 2]" eq_refl).
  intros d. vm_compute. discriminate.
Defined.

(** X6.  Building the service never changes a file and never opens one
    for writing; it leaves the run flag down and the line bound at 100,
    and prints at most the one error line. *)
Theorem init_changes_nothing (w : world) :
  config_file (snd (init w)) = config_file w
  /\ log_file (snd (init w)) = log_file w
  /\ writes (snd (init w)) = writes w
  /\ running (fst (init w)) = false
  /\ max_log_lines (fst (init w)) = 100
  /\ (console (snd (init w)) = console w
      \/ console (snd (init w)) = (console w ++ [ErrorLoadingConfig])%list).
Proof.
  unfold init, load_config.
  destruct (config_file w) as [text|] eqn:E;
    [|cbn [fst snd running max_log_lines]; rewrite E; auto 10].
  set (w1 := note_open ConfigFile ModeR w).
  assert (Hw1 : config_file w1 = Some text /\ log_file w1 = log_file w
                /\ writes w1 = writes w /\ console w1 = console w).
  { unfold w1. rewrite writes_note_read. cbn. auto. }
  destruct Hw1 as (H1 & H2 & H3 & H4).
  destruct (json_load text) as [config| |];
    [destruct (config_get config)|..]; cbn [fst snd];
    change (writes (print ErrorLoadingConfig w1)) with (writes w1);
    cbn [print config_file log_file console running max_log_lines
         set_interval_attr];
    rewrite ?H1, ?H2, ?H3, ?H4; auto 10.
Qed.

(** ** The loop over any sequence of events *)

Section Run.

Variable int_lt_float : Z -> string -> bool.

Lemma wait_test_service (s : RunScriptService) (w : world) (elapsed : Z) :
  svc (wait_test int_lt_float s w elapsed) = s
  /\ wld (wait_test int_lt_float s w elapsed) = w.
Proof.
  unfold wait_test, outer_test.
  destruct (lt_interval int_lt_float elapsed (interval s)) as [b|];
    [|split; reflexivity].
  destruct (b && running s); [split; reflexivity|].
  destruct (running s); split; reflexivity.
Qed.

Lemma execute_script_service (s : RunScriptService) (now now' : string)
  (l : launch) (w : world) :
  interval (fst (fst (execute_script s now now' l w))) = interval s
  /\ max_log_lines (fst (fst (execute_script s now now' l w)))
     = max_log_lines s.
Proof. destruct l; split; reflexivity. Qed.

Lemma execute_script_uninterrupted (s : RunScriptService)
  (now now' : string) (l : launch) (w : world) :
  interrupted l = false ->
  execute_script s now now' l w
  = (s, snd (fst (execute_script s now now' l w)), Normal).
Proof. destruct l; [reflexivity..|discriminate]. Qed.

Lemma step_service (st st' : state) (ev : event) :
  step int_lt_float st ev = Some st' ->
  interval (svc st') = interval (svc st)
  /\ max_log_lines (svc st') = max_log_lines (svc st).
Proof.
  unfold step. intros H.
  destruct (at_pc st) as [|elapsed|e]; destruct ev as [now now' l| |signum];
    try discriminate.
  - pose proof (execute_script_service (svc st) now now' l (wld st)) as Hs.
    destruct (execute_script (svc st) now now' l (wld st)) as [[s1 w1] c].
    cbn [fst] in Hs.
    destruct c as [|[msg|code]]; injection H as <-; cbn [svc];
      try exact Hs.
    now rewrite (proj1 (wait_test_service s1 w1 0)).
  - injection H as <-.
    now rewrite (proj1 (wait_test_service (svc st) (wld st) (elapsed + 1))).
  - injection H as <-. split; reflexivity.
Qed.

(** X7.  Whatever happens while the loop runs, it never changes the
    configuration file, the interval it started with or its line bound: a
    new interval takes effect only at the next start. *)
Theorem loop_keeps_configuration (st : state) (evs : list event) :
  config_file (wld (fst (steps int_lt_float st evs)))
  = config_file (wld st)
  /\ interval (svc (fst (steps int_lt_float st evs))) = interval (svc st)
  /\ max_log_lines (svc (fst (steps int_lt_float st evs)))
     = max_log_lines (svc st).
Proof.
  revert st. induction evs as [|ev evs IH]; intros st; [cbn; auto|].
  cbn [steps]. destruct (step int_lt_float st ev) as [st'|] eqn:E;
    [|cbn; auto].
  specialize (IH st').
  destruct (steps int_lt_float st' evs) as [st'' n]. cbn [fst] in *.
  destruct (step_service st st' ev E) as [Hi Hm].
  rewrite <- (step_config int_lt_float st st' ev E), <- Hi, <- Hm.
  exact IH.
Qed.

Lemma wait_counts (s : RunScriptService) (w : world) (n : Z) (k : nat) :
  running s = true -> interval s = JInt n ->
  forall elapsed : Z,
    elapsed + Z.of_nat (S k) = n ->
    steps int_lt_float (mkState s w (AtSleep elapsed)) (repeat Slept (S k))
    = (mkState s w AtExec, S k).
Proof.
  intros Hrun Hint. induction k as [|k IH]; intros elapsed Hn.
  - cbn [repeat steps step at_pc svc wld].
    unfold wait_test, outer_test, lt_interval. rewrite Hint, Hrun.
    replace (elapsed + 1 <? n) with false
      by (symmetry; apply Z.ltb_ge; lia).
    reflexivity.
  - change (repeat Slept (S (S k))) with (Slept :: repeat Slept (S k)).
    cbn [steps]. rewrite (wait_goes_on int_lt_float s w elapsed n Hrun Hint) by lia.
    rewrite (IH (elapsed + 1)) by lia. reflexivity.
Qed.

Lemma wait_in_progress (s : RunScriptService) (w : world) (n : Z) (k : nat) :
  running s = true -> interval s = JInt n ->
  forall elapsed : Z,
    elapsed + Z.of_nat k < n ->
    steps int_lt_float (mkState s w (AtSleep elapsed)) (repeat Slept k)
    = (mkState s w (AtSleep (elapsed + Z.of_nat k)), k).
Proof.
  intros Hrun Hint. induction k as [|k IH]; intros elapsed Hn.
  - cbn. now rewrite Z.add_0_r.
  - change (repeat Slept (S k)) with (Slept :: repeat Slept k).
    cbn [steps]. rewrite (wait_goes_on int_lt_float s w elapsed n Hrun Hint) by lia.
    rewrite (IH (elapsed + 1)) by lia. do 3 f_equal. lia.
Qed.

(** X8.  With the flag up and an integer interval [n > 0], the wait that
    starts after an execution is over after exactly [n] one-second sleeps:
    fewer sleeps leave the program waiting, and the [n]-th leads to the
    next execution. *)
Theorem wait_lasts_interval (s : RunScriptService) (w : world) (n : Z) :
  running s = true -> interval s = JInt n -> 0 < n ->
  steps int_lt_float (mkState s w (AtSleep 0)) (repeat Slept (Z.to_nat n))
  = (mkState s w AtExec, Z.to_nat n)
  /\ (forall k : nat,
        Z.of_nat k < n ->
        steps int_lt_float (mkState s w (AtSleep 0)) (repeat Slept k)
        = (mkState s w (AtSleep (Z.of_nat k)), k)).
Proof.
  intros Hrun Hint Hn. split.
  - destruct (Z.to_nat n) as [|k] eqn:E; [lia|].
    apply (wait_counts s w n k Hrun Hint). lia.
  - intros k Hk. apply (wait_in_progress s w n k Hrun Hint 0). lia.
Qed.

Lemma step_no_wait (s : RunScriptService) (w : world) (n : Z)
  (now now' : string) (l : launch) :
  running s = true -> interval s = JInt n -> n <= 0 ->
  interrupted l = false ->
  step int_lt_float (mkState s w AtExec) (Ran now now' l)
  = Some (mkState s (snd (fst (execute_script s now now' l w))) AtExec).
Proof.
  intros Hrun Hint Hn Hl. cbn [step at_pc svc wld].
  rewrite (execute_script_uninterrupted s now now' l w Hl).
  unfold wait_test, outer_test, lt_interval. rewrite Hint, Hrun.
  replace (0 <? n) with false by (symmetry; apply Z.ltb_ge; lia).
  reflexivity.
Qed.

Lemma step_interrupted (s : RunScriptService) (w : world)
  (now now' : string) (signum : Z) :
  step int_lt_float (mkState s w AtExec) (Ran now now' (Signalled signum))
  = Some (mkState (set_running false s)
            (print (Text "Service stopping...")
               (print (Text ("Received signal " ++ Py.str_int signum)) w))
            (Ended (Exited 0))).
Proof. reflexivity. Qed.

(** X9.  With an integer interval that is zero or negative, which
    [set-interval] accepts, the loop never sleeps: an execution that was
    not interrupted is followed at once by the next, and no sequence of
    events contains a completed one-second sleep. *)
Theorem non_positive_interval_never_sleeps (s : RunScriptService) (n : Z) :
  running s = true -> interval s = JInt n -> n <= 0 ->
  (forall (w : world) (now now' : string) (l : launch),
     interrupted l = false ->
     exists w',
       step int_lt_float (mkState s w AtExec) (Ran now now' l)
       = Some (mkState s w' AtExec))
  /\ (forall (w : world) (evs : list event),
        snd (steps int_lt_float (mkState s w AtExec) evs) = O).
Proof.
  intros Hrun Hint Hn. split.
  - intros w now now' l Hl. eexists.
    apply (step_no_wait s w n now now' l Hrun Hint Hn Hl).
  - intros w evs. revert w.
    induction evs as [|ev evs IH]; intros w; [reflexivity|].
    cbn [steps]. destruct ev as [now now' l| |signum]; try reflexivity.
    destruct (interrupted l) eqn:Hl.
    + destruct l as [rc out err|msg|signum]; try discriminate.
      rewrite step_interrupted.
      match goal with
      | |- context [steps int_lt_float ?st evs] =>
          now rewrite (steps_ended int_lt_float st (Exited 0) evs eq_refl)
      end.
    + rewrite (step_no_wait s w n now now' l Hrun Hint Hn Hl).
      specialize (IH (snd (fst (execute_script s now now' l w)))).
      destruct (steps int_lt_float _ evs) as [st'' k]. exact IH.
Qed.

(** X10.  When the interval is no number (a configuration file can hold a
    string, [null], a list or an object under [interval]), the first
    execution is made and logged as usual, and the comparison that starts
    the wait then ends the program with a [TypeError]. *)
Theorem non_numeric_interval_ends_loop (s : RunScriptService) (w : world)
  (now now' : string) (l : launch) :
  numeric (interval s) = false -> interrupted l = false ->
  step int_lt_float (mkState s w AtExec) (Ran now now' l)
  = Some (mkState s (snd (fst (execute_script s now now' l w)))
            (Ended TypeError)).
Proof.
  intros Hnum Hl. cbn [step at_pc svc wld].
  rewrite (execute_script_uninterrupted s now now' l w Hl).
  unfold wait_test, lt_interval.
  destruct (interval s); try discriminate; reflexivity.
Qed.

(** X11.  A signal that arrives while the child runs ends the process with
    status 0 and the flag down; the two lines of the handler are printed,
    and no entry for that execution reaches the log. *)
Theorem signal_while_child_runs (s : RunScriptService) (w : world)
  (now now' : string) (signum : Z) :
  exists st',
    step int_lt_float (mkState s w AtExec) (Ran now now' (Signalled signum))
    = Some st'
    /\ at_pc st' = Ended (Exited 0)
    /\ running (svc st') = false
    /\ log_file (wld st') = log_file w
    /\ opened (wld st') = opened w
    /\ console (wld st')
       = (console w ++ [Text ("Received signal " ++ Py.str_int signum);
                        Text "Service stopping..."])%list.
Proof.
  eexists. split; [apply step_interrupted|].
  cbn. rewrite <- app_assoc. auto 10.
Qed.

Lemma wait_test_going (s : RunScriptService) (w : world) (elapsed : Z) :
  running s = true ->
  going_or_signalled (wait_test int_lt_float s w elapsed).
Proof.
  intros Hrun. unfold wait_test, outer_test.
  destruct (lt_interval int_lt_float elapsed (interval s)) as [b|];
    [|exact Hrun].
  rewrite Hrun, andb_true_r. destruct b; exact Hrun.
Qed.

Lemma step_going (st st' : state) (ev : event) :
  going_or_signalled st ->
  step int_lt_float st ev = Some st' ->
  going_or_signalled st'.
Proof.
  unfold step. intros Hst H.
  destruct st as [s w pc]. unfold going_or_signalled in Hst.
  cbn [at_pc svc wld] in *.
  destruct pc as [|elapsed|e]; destruct ev as [now now' l| |signum];
    try discriminate.
  - destruct l as [rc out err|msg|sig].
    + injection H as <-. now apply wait_test_going.
    + injection H as <-. now apply wait_test_going.
    + injection H as <-. split; reflexivity.
  - injection H as <-. now apply wait_test_going.
  - injection H as <-. split; reflexivity.
Qed.

(** X12.  From its start the loop is only ever found running with the
    flag up, or ended by a signal with status 0 and the flag down, or
    ended by a [TypeError]: [run] never returns through the test of its
    loop, and the process never ends the loop with another status. *)
Theorem loop_ends_only_by_signal (s : RunScriptService) (w : world)
  (evs : list event) :
  going_or_signalled (fst (steps int_lt_float (run s w) evs)).
Proof.
  assert (Hgen : forall st,
             going_or_signalled st ->
             going_or_signalled (fst (steps int_lt_float st evs))).
  { induction evs as [|ev evs IH]; intros st Hst; [exact Hst|].
    cbn [steps]. destruct (step int_lt_float st ev) as [st'|] eqn:E;
      [|exact Hst].
    specialize (IH st' (step_going st st' ev Hst E)).
    destruct (steps int_lt_float st' evs) as [st'' k]. exact IH. }
  apply Hgen. reflexivity.
Qed.

End Run.

Lemma wait_lasts_interval_witness :
  let s := mkService true (JInt 3) 100 in
  steps (fun _ _ => false) (mkState s world0 (AtSleep 0))
    [Slept; Slept; Slept]
  = (mkState s world0 AtExec, 3%nat).
Proof.
  intros s.
  exact (proj1 (wait_lasts_interval (fun _ _ => false) s world0 3
                  eq_refl eq_refl eq_refl)).
Defined.

Lemma non_positive_interval_never_sleeps_witness :
  let s := mkService true (JInt 0) 100 in
  snd (steps (fun _ _ => false) (mkState s world0 AtExec)
         [Ran "t" "t" (Failed "m"); Slept; Ran "t" "t" (Failed "m")])
  = O.
Proof.
  intros s.
  exact (proj2 (non_positive_interval_never_sleeps (fun _ _ => false) s 0
                  eq_refl eq_refl (Z.le_refl 0)) world0 _).
Defined.

Lemma non_numeric_interval_ends_loop_witness :
  let s := mkService true (JString (code_points "abc")) 100 in
  at_pc (match step (fun _ _ => false) (mkState s world0 AtExec)
                 (Ran "t" "t" (Completed 0 "hello" "")) with
         | Some st' => st'
         | None => mkState s world0 AtExec
         end)
  = Ended TypeError.
Proof.
  intros s.
  rewrite (non_numeric_interval_ends_loop (fun _ _ => false) s world0
             "t" "t" (Completed 0 "hello" "") eq_refl eq_refl).
  reflexivity.
Defined.

(** ** More on trimming *)

Lemma slice_from_skipn {A} (start : Z) (l : list A) :
  exists k, Py.slice_from start l = skipn k l.
Proof. unfold Py.slice_from. destruct (start <? 0); eauto. Qed.

(** X13.  Whatever the line bound is, trimming only ever removes lines
    from the front of the log: the lines left are the old lines from some
    position on, unchanged and in order. *)
Theorem trim_log_drops_only_front (s : RunScriptService) (w : world) :
  exists k, log_lines (trim_log s w) = skipn k (log_lines w).
Proof.
  unfold log_lines. destruct (log_file w) as [text|] eqn:E.
  - destruct (Z_gt_le_dec (Z.of_nat (List.length (Py.readlines text)))
                (max_log_lines s)) as [Hover|Hle].
    + rewrite (trim_log_over s w text E Hover).
      cbn [write_file set_content log_file].
      destruct (slice_from_skipn (- max_log_lines s) (Py.readlines text))
        as [k ->].
      exists k. apply readlines_writelines, skipn_wf, readlines_wf.
    + rewrite (trim_log_within s w text E Hle).
      cbn [note_open log_file]. rewrite E. now exists O.
  - exists O. unfold trim_log. rewrite E. now rewrite E.
Qed.

(** X14.  With a positive line bound, trimming twice is trimming once: the
    second call finds the log within the bound, leaves its text as it is
    and opens nothing for writing. *)
Theorem trim_log_idempotent (s : RunScriptService) (w : world) :
  0 < max_log_lines s ->
  log_file (trim_log s (trim_log s w)) = log_file (trim_log s w)
  /\ writes (trim_log s (trim_log s w)) = writes (trim_log s w).
Proof.
  intros Hmax. pose proof (trim_log_bounded s w Hmax) as Hb.
  unfold line_count, log_lines in Hb.
  destruct (log_file (trim_log s w)) as [text|] eqn:E.
  - rewrite (trim_log_within s (trim_log s w) text E Hb).
    rewrite writes_note_read. cbn [note_open log_file]. now rewrite E.
  - unfold trim_log at 1 3. rewrite E. now rewrite E.
Qed.

Lemma trim_log_idempotent_witness :
  let s := fst (init world0) in
  let w := mkWorld None (Some (log_of 101)) [] [] in
  log_file (trim_log s (trim_log s w)) = log_file (trim_log s w)
  /\ writes (trim_log s (trim_log s w)) = writes (trim_log s w).
Proof.
  intros s w. exact (trim_log_idempotent s w eq_refl).
Defined.

(** X15.  A line bound of zero bounds nothing: [lines[-0:]] is the whole
    list, so trimming then keeps every line of the log. *)
Theorem trim_log_zero_bound_keeps_all (s : RunScriptService) (w : world) :
  max_log_lines s = 0 -> log_lines (trim_log s w) = log_lines w.
Proof.
  intros Hmax. unfold log_lines.
  destruct (log_file w) as [text|] eqn:E.
  - destruct (Z_gt_le_dec (Z.of_nat (List.length (Py.readlines text)))
                (max_log_lines s)) as [Hover|Hle].
    + rewrite (trim_log_over s w text E Hover).
      cbn [write_file set_content log_file]. rewrite Hmax.
      change (Py.slice_from (- 0) (Py.readlines text))
        with (Py.readlines text).
      apply readlines_writelines, readlines_wf.
    + rewrite (trim_log_within s w text E Hle).
      cbn [note_open log_file]. now rewrite E.
  - unfold trim_log. rewrite E. now rewrite E.
Qed.

Lemma trim_log_zero_bound_keeps_all_witness :
  let s := mkService false (JInt 3600) 0 in
  let w := mkWorld None (Some (log_of 3)) [] [] in
  log_lines (trim_log s w) = log_lines w.
Proof.
  intros s w. exact (trim_log_zero_bound_keeps_all s w eq_refl).
Defined.

(** ** Logs made of whole lines *)









(** ** The log after a completed execution *)

Lemma log_of_completed (s : RunScriptService) (now now' : string) (rc : Z)
  (out err : string) (w : world) :
  log_file (snd (fst (execute_script s now now' (Completed rc out err) w)))
  = log_file (trim_log s (append_file LogFile (log_entry now rc out err) w)).
Proof. reflexivity. Qed.

(** X17.  A completed execution always leaves the log within a positive
    line bound, even when earlier failed launches had let it grow beyond:
    if the old log with the new entry has more lines than the bound, its
    last [max_log_lines] lines are kept, and otherwise all of it. *)
Theorem completed_execution_restores_bound (s : RunScriptService)
  (now now' : string) (rc : Z) (out err : string) (w : world) :
  0 < max_log_lines s ->
  let w2 := append_file LogFile (log_entry now rc out err) w in
  let w' := snd (fst (execute_script s now now' (Completed rc out err) w)) in
  line_count w' <= max_log_lines s
  /\ (line_count w2 > max_log_lines s ->
      log_lines w' = tail_lines (max_log_lines s) (log_lines w2))
  /\ (line_count w2 <= max_log_lines s ->
      log_file w' = Some (log_text w ++ log_entry now rc out err)).
Proof.
  intros Hmax w2 w'.
  assert (Hlog : log_file w' = log_file (trim_log s w2))
    by apply log_of_completed.
  assert (Hlines : log_lines w' = log_lines (trim_log s w2))
    by (unfold log_lines; now rewrite Hlog).
  split; [|split].
  - unfold line_count. rewrite Hlines. apply (trim_log_bounded s w2 Hmax).
  - intros Hover. rewrite Hlines. now apply trim_log_over_lines.
  - intros Hle. rewrite Hlog.
    assert (E : log_file w2 = Some (log_text w ++ log_entry now rc out err))
      by reflexivity.
    unfold line_count, log_lines in Hle. rewrite E in Hle.
    now rewrite (trim_log_within s w2 _ E Hle).
Qed.

Lemma completed_execution_restores_bound_witness :
  let s := fst (init world0) in
  let w := mkWorld None (Some (log_of 102)) [] [] in
  line_count (snd (fst (execute_script s "2024-01-01 00:00:00" ""
                          (Completed 0 "hello" "") w)))
  <= max_log_lines s.
Proof.
  intros s w.
  exact (proj1 (completed_execution_restores_bound s "2024-01-01 00:00:00"
                  "" 0 "hello" "" w eq_refl)).
Defined.




(** ** From one command to the next *)




(** ** Output that is only white space *)

Lemma lstrip_all_space (s : string) :
  all_space s = true -> Py.lstrip s = EmptyString.
Proof.
  induction s as [|c s IH]; [reflexivity|].
  cbn [all_space Py.lstrip]. intros H. apply andb_true_iff in H.
  destruct H as [Hc Hs]. rewrite Hc. now apply IH.
Qed.

(** X20.  Output is tested for emptiness before it is stripped: a child
    that writes nothing but white space (a lone line feed, say) still gets
    its STDOUT or STDERR line in the entry, with nothing after the label. *)
Theorem blank_output_is_logged (now : string) (rc : Z) (out err : string) :
  out <> EmptyString -> all_space out = true ->
  err <> EmptyString -> all_space err = true ->
  log_entry now rc out EmptyString
  = unlines ["[" ++ now ++ "] Exit code: " ++ Py.str_int rc;
             "STDOUT: "; dashes]
  /\ log_entry now rc EmptyString err
     = unlines ["[" ++ now ++ "] Exit code: " ++ Py.str_int rc;
                "STDERR: "; dashes]
  /\ log_entry now rc out err
     = unlines ["[" ++ now ++ "] Exit code: " ++ Py.str_int rc;
                "STDOUT: "; "STDERR: "; dashes].
Proof.
  intros Ho Hso He Hse.
  assert (Eo : Py.strip out = EmptyString)
    by (unfold Py.strip; now rewrite lstrip_all_space).
  assert (Ee : Py.strip err = EmptyString)
    by (unfold Py.strip; now rewrite lstrip_all_space).
  rewrite !log_entry_lines. unfold entry_lines.
  apply String.eqb_neq in Ho, He. rewrite Ho, He, Eo, Ee.
  repeat split; reflexivity.
Qed.

Lemma blank_output_is_logged_witness :
  log_entry "t" 0 (String Py.LF "") (String Py.LF "")
  = unlines ["[" ++ "t" ++ "] Exit code: " ++ Py.str_int 0;
             "STDOUT: "; "STDERR: "; dashes].
Proof.
  refine (proj2 (proj2 (blank_output_is_logged "t" 0 (String Py.LF "")
                          (String Py.LF "") _ eq_refl _ eq_refl)));
    discriminate.
Defined.
